(** * Drag3D viewer: orbit camera, shading pipeline and adaptive step scheduler

    A shallow embedding of [gui.py]: the [OrbitCamera] class, the shading part
    of [GUI.test_step], the step-count adaptation of [GUI.train_step], the
    callbacks of [GUI.register_dpg] and the loop of [GUI.render].  The
    generator ([GET3DWrapper]) and the command line of [main] are not
    modelled.

    Numbers.  Python integers are [Z].  Floats come at two levels.  Where a
    property is one of geometry or of order, floats are modelled without
    rounding: camera and shading quantities are real numbers ([R]), the
    measured training time is a rational ([Q]) so that the scheduler
    computes, and the operations that are written once for every scalar
    ([scale], [pan]) are stated over the interface [PyFloat], which has two
    instances: the reals, and [xfloat], the reals extended by the IEEE values
    [inf], [-inf] and [nan].  Where a property depends on the value a
    binary64 operation gives, the operation is the binary64 one: the step
    scheduler is given a second time on the kernel's floats ([Binary64]),
    which compute as the hardware does, and [scale] a second time on reals
    with rounding to nearest, overflow and underflow ([Rounded64]), where
    [**] can be stated.

    External collaborators.  [scipy]'s [Rotation] is modelled by the rotation
    matrix it denotes, [np.linalg.inv] by the adjugate formula, and the four
    [nvdiffrast] operations by an interface that only fixes the shapes of
    their outputs.  The trainer is a function from a step count to what one
    call of it gives, the times the CUDA events measure are inputs, and the
    GUI toolkit is a store of item values; the label of a button is kept as
    the value of its item, and the events the toolkit delivers are a list. *)

From Stdlib Require Import Reals Lra Psatz ZArith QArith Qround Lia.
From Stdlib Require Import List String Bool ClassicalEpsilon.
From Stdlib Require Floats.
Import ListNotations.

Set Implicit Arguments.

(** ** Python outcomes *)

Module Py.

Inductive exn : Type :=
| ZeroDivisionError
| AttributeError
| LinAlgError
| UnboundLocalError
| OverflowError
| ValueError.

(** The result of a call that either returns or raises. *)
Inductive result (A : Type) : Type :=
| Ok (a : A)
| Raise (e : exn).

Arguments Ok {A} a.
Arguments Raise {A} e.

Definition bind {A B} (r : result A) (k : A -> result B) : result B :=
  match r with
  | Ok a => k a
  | Raise e => Raise e
  end.

Definition fmap {A B} (f : A -> B) (r : result A) : result B :=
  bind r (fun a => Ok (f a)).

End Py.
Export Py.

(** ** Scalars *)

(** The arithmetic the camera mutators use.  [fpow b e] is [b ** e] for a
    finite literal base [b > 1] (the source only has [1.1 ** e]). *)
Class PyFloat (F : Type) : Type := {
  flit : R -> F;
  fadd : F -> F -> F;
  fmul : F -> F -> F;
  fneg : F -> F;
  fpow : R -> F -> F
}.

#[export] Instance PyFloat_R : PyFloat R := {|
  flit := fun r => r;
  fadd := Rplus;
  fmul := Rmult;
  fneg := Ropp;
  fpow := Rpower
|}.

(** Reals extended by the IEEE special values; no rounding, no signed zero. *)
Inductive xfloat : Type :=
| XFin (r : R)
| XPInf
| XNInf
| XNaN.

Module XFloat.

Inductive sign : Type := Neg | Zero | Pos.

Definition sign_of (r : R) : sign :=
  if Rlt_dec 0 r then Pos else if Rlt_dec r 0 then Neg else Zero.

Definition inf_of (s : sign) : xfloat :=
  match s with
  | Pos => XPInf
  | Neg => XNInf
  | Zero => XNaN
  end.

Definition flip (s : sign) : sign :=
  match s with
  | Pos => Neg
  | Neg => Pos
  | Zero => Zero
  end.

Definition neg (a : xfloat) : xfloat :=
  match a with
  | XFin r => XFin (- r)
  | XPInf => XNInf
  | XNInf => XPInf
  | XNaN => XNaN
  end.

Definition add (a b : xfloat) : xfloat :=
  match a, b with
  | XNaN, _ | _, XNaN => XNaN
  | XFin x, XFin y => XFin (x + y)
  | XPInf, XNInf | XNInf, XPInf => XNaN
  | XPInf, _ | _, XPInf => XPInf
  | XNInf, _ | _, XNInf => XNInf
  end.

Definition mul (a b : xfloat) : xfloat :=
  match a, b with
  | XNaN, _ | _, XNaN => XNaN
  | XFin x, XFin y => XFin (x * y)
  | XFin x, XPInf | XPInf, XFin x => inf_of (sign_of x)
  | XFin x, XNInf | XNInf, XFin x => inf_of (flip (sign_of x))
  | XPInf, XPInf | XNInf, XNInf => XPInf
  | XPInf, XNInf | XNInf, XPInf => XNInf
  end.

(** [b ** e] for a finite base [b > 0]: C's [pow] on the special exponents. *)
Definition pow (b : R) (e : xfloat) : xfloat :=
  match e with
  | XFin y => XFin (Rpower b y)
  | XNaN => if Req_dec_T b 1 then XFin 1 else XNaN
  | XPInf =>
      if Rlt_dec 1 b then XPInf else if Rlt_dec b 1 then XFin 0 else XFin 1
  | XNInf =>
      if Rlt_dec 1 b then XFin 0 else if Rlt_dec b 1 then XPInf else XFin 1
  end.

Definition is_finite (a : xfloat) : bool :=
  match a with
  | XFin _ => true
  | _ => false
  end.

End XFloat.

#[export] Instance PyFloat_xfloat : PyFloat xfloat := {|
  flit := XFin;
  fadd := XFloat.add;
  fmul := XFloat.mul;
  fneg := XFloat.neg;
  fpow := XFloat.pow
|}.

(** ** Small vectors and matrices *)

Record Vec3 (F : Type) : Type := mkVec3 { vx : F; vy : F; vz : F }.

(** A 3x3 array, row by row. *)
Record Mat3 (F : Type) : Type := mkMat3 {
  m00 : F; m01 : F; m02 : F;
  m10 : F; m11 : F; m12 : F;
  m20 : F; m21 : F; m22 : F
}.

Section GenericLinalg.
Context {F : Type} `{PyFloat F}.

(** [s * M] for a scalar [s]. *)
Definition mat3_smul (s : F) (M : Mat3 F) : Mat3 F :=
  mkMat3 (fmul s (m00 M)) (fmul s (m01 M)) (fmul s (m02 M))
         (fmul s (m10 M)) (fmul s (m11 M)) (fmul s (m12 M))
         (fmul s (m20 M)) (fmul s (m21 M)) (fmul s (m22 M)).

Definition dot3 (a0 a1 a2 : F) (v : Vec3 F) : F :=
  fadd (fadd (fmul a0 (vx v)) (fmul a1 (vy v))) (fmul a2 (vz v)).

(** [M @ v]. *)
Definition mat3_vec (M : Mat3 F) (v : Vec3 F) : Vec3 F :=
  mkVec3 (dot3 (m00 M) (m01 M) (m02 M) v)
         (dot3 (m10 M) (m11 M) (m12 M) v)
         (dot3 (m20 M) (m21 M) (m22 M) v).

Definition vec3_add (a b : Vec3 F) : Vec3 F :=
  mkVec3 (fadd (vx a) (vx b)) (fadd (vy a) (vy b)) (fadd (vz a) (vz b)).

End GenericLinalg.

(** A [Rotation] object, as the matrix [as_matrix()] returns. *)
Definition Rotation (F : Type) : Type := Mat3 F.

Definition as_matrix {F : Type} (r : Rotation F) : Mat3 F := r.

(** ** NumPy arrays over the reals *)

Module Np.
Local Open Scope R_scope.

(** A 2-d array, row by row. *)
Definition matrix : Type := list (list R).

Definition eye (n : nat) : matrix :=
  map (fun i => map (fun j => if Nat.eqb i j then 1 else 0) (seq 0 n)) (seq 0 n).

Fixpoint update {A : Type} (n : nat) (f : A -> A) (l : list A) : list A :=
  match l, n with
  | [], _ => []
  | x :: t, O => f x :: t
  | x :: t, S n' => x :: update n' f t
  end.

(** [M[i, j] = f(M[i, j])] *)
Definition map_at (i j : nat) (f : R -> R) (M : matrix) : matrix :=
  update i (update j f) M.

(** [M[i, j] = v] *)
Definition mset (i j : nat) (v : R) (M : matrix) : matrix :=
  map_at i j (fun _ => v) M.

(** [M[:3, :3] = B] *)
Definition set_block3 (B : Mat3 R) (M : matrix) : matrix :=
  mset 2 2 (m22 B) (mset 2 1 (m21 B) (mset 2 0 (m20 B)
  (mset 1 2 (m12 B) (mset 1 1 (m11 B) (mset 1 0 (m10 B)
  (mset 0 2 (m02 B) (mset 0 1 (m01 B) (mset 0 0 (m00 B) M)))))))).

(** [M[:3, j] -= v] *)
Definition sub_col3 (j : nat) (v : Vec3 R) (M : matrix) : matrix :=
  map_at 2 j (fun x => x - vz v)
    (map_at 1 j (fun x => x - vy v) (map_at 0 j (fun x => x - vx v) M)).

Fixpoint dot (a b : list R) : R :=
  match a, b with
  | x :: a', y :: b' => x * y + dot a' b'
  | _, _ => 0
  end.

Definition column (j : nat) (M : matrix) : list R :=
  map (fun row => nth j row 0) M.

Definition ncols (M : matrix) : nat := List.length (hd [] M).

(** [A @ B] *)
Definition matmul (A B : matrix) : matrix :=
  map (fun row => map (fun j => dot row (column j B)) (seq 0 (ncols B))) A.

(** [torch.transpose(M, 0, 1)] *)
Definition transpose (M : matrix) : matrix :=
  map (fun j => column j M) (seq 0 (ncols M)).

(** [M @ v] for a 1-d [v]. *)
Definition matvec (M : matrix) (v : list R) : list R :=
  map (fun row => dot row v) M.

Fixpoint remove_nth {A : Type} (n : nat) (l : list A) : list A :=
  match l, n with
  | [], _ => []
  | _ :: t, O => t
  | x :: t, S n' => x :: remove_nth n' t
  end.

Definition minor (i j : nat) (M : matrix) : matrix :=
  map (remove_nth j) (remove_nth i M).

(** Determinant of an [n] x [n] array, expanded along the first row. *)
Fixpoint det (n : nat) (M : matrix) : R :=
  match n with
  | O => 1
  | S n' =>
      fold_right Rplus 0
        (map (fun j => (-1) ^ j * nth j (hd [] M) 0 * det n' (minor 0 j M))
             (seq 0 n))
  end.

Definition cofactor (n i j : nat) (M : matrix) : R :=
  (-1) ^ (i + j) * det (Nat.pred n) (minor i j M).

Definition adjugate (n : nat) (M : matrix) : matrix :=
  map (fun i => map (fun j => cofactor n j i M) (seq 0 n)) (seq 0 n).

(** [np.linalg.inv(M)]: the inverse of a square array, [LinAlgError] when it
    is singular. *)
Definition linalg_inv (M : matrix) : result matrix :=
  let n := List.length M in
  let d := det n M in
  if Req_dec_T d 0 then Raise LinAlgError
  else Ok (map (map (fun x => x / d)) (adjugate n M)).

(** [np.radians] *)
Definition radians (deg : R) : R := deg * PI / 180.

Definition rows3 (M : Mat3 R) : matrix :=
  [[m00 M; m01 M; m02 M]; [m10 M; m11 M; m12 M]; [m20 M; m21 M; m22 M]].

End Np.

(** ** [scipy.spatial.transform.Rotation] over the reals *)

Module Rot.
Local Open Scope R_scope.

Definition identity : Rotation R := mkMat3 1 0 0 0 1 0 0 0 1.

(** [R.from_matrix(np.eye(3))] *)
Definition from_eye : Rotation R := identity.

Definition mat3_add (A B : Mat3 R) : Mat3 R :=
  mkMat3 (m00 A + m00 B) (m01 A + m01 B) (m02 A + m02 B)
         (m10 A + m10 B) (m11 A + m11 B) (m12 A + m12 B)
         (m20 A + m20 B) (m21 A + m21 B) (m22 A + m22 B).

Definition mat3_mul (A B : Mat3 R) : Mat3 R :=
  mkMat3
    (m00 A * m00 B + m01 A * m10 B + m02 A * m20 B)
    (m00 A * m01 B + m01 A * m11 B + m02 A * m21 B)
    (m00 A * m02 B + m01 A * m12 B + m02 A * m22 B)
    (m10 A * m00 B + m11 A * m10 B + m12 A * m20 B)
    (m10 A * m01 B + m11 A * m11 B + m12 A * m21 B)
    (m10 A * m02 B + m11 A * m12 B + m12 A * m22 B)
    (m20 A * m00 B + m21 A * m10 B + m22 A * m20 B)
    (m20 A * m01 B + m21 A * m11 B + m22 A * m21 B)
    (m20 A * m02 B + m21 A * m12 B + m22 A * m22 B).

Definition transpose (A : Mat3 R) : Mat3 R :=
  mkMat3 (m00 A) (m10 A) (m20 A)
         (m01 A) (m11 A) (m21 A)
         (m02 A) (m12 A) (m22 A).

(** The cross-product matrix of [v]: [cross v @ w = v x w]. *)
Definition cross (v : Vec3 R) : Mat3 R :=
  mkMat3 0 (- vz v) (vy v)
         (vz v) 0 (- vx v)
         (- vy v) (vx v) 0.

Definition norm (v : Vec3 R) : R :=
  sqrt (vx v * vx v + vy v * vy v + vz v * vz v).

(** [R.from_rotvec(v)]: the rotation about [v] by the angle [|v|]
    (the exponential of [cross v]); the identity for the zero vector. *)
Definition from_rotvec (v : Vec3 R) : Rotation R :=
  let angle := norm v in
  if Req_dec_T angle 0 then identity
  else
    let K := cross v in
    mat3_add identity
      (mat3_add (mat3_smul (sin angle / angle) K)
                (mat3_smul ((1 - cos angle) / (angle * angle)) (mat3_mul K K))).

(** [p * q]: the rotation [q] followed by [p]. *)
Definition compose (p q : Rotation R) : Rotation R := mat3_mul p q.

End Rot.

(** ** [class OrbitCamera] *)

Module OrbitCamera.
Import Np.

Record t (F : Type) : Type := mk {
  W : Z;
  H : Z;
  radius : F;      (* camera distance from center *)
  fovy : F;        (* in degree *)
  near : F;
  far : F;
  center : Vec3 F; (* look at this point *)
  rot : Rotation F;
  up : Vec3 F
}.

Section Mutators.
Context {F : Type} `{PyFloat F}.

Definition set_radius (r : F) (c : t F) : t F :=
  mk (W c) (H c) r (fovy c) (near c) (far c) (center c) (rot c) (up c).

Definition set_center (p : Vec3 F) (c : t F) : t F :=
  mk (W c) (H c) (radius c) (fovy c) (near c) (far c) p (rot c) (up c).

Definition set_rot (r : Rotation F) (c : t F) : t F :=
  mk (W c) (H c) (radius c) (fovy c) (near c) (far c) (center c) r (up c).

(** [self.radius *= 1.1 ** (-delta)], over the scalars [F].  The instances
    of [PyFloat] neither round nor overflow: they serve for which field
    [scale] assigns and for how the special values travel.  The binary64
    value of the radius is [Rounded64.scale] below. *)
Definition scale (delta : F) (c : t F) : t F :=
  set_radius (fmul (radius c) (fpow (11 / 10) (fneg delta))) c.

(** [self.center += 0.0005 * self.rot.as_matrix()[:3, :3] @ np.array([dx, -dy, dz])];
    [*] and [@] associate to the left.  [center] is a float32 array, so the
    source rounds the sum; the sum here is the one of [F]. *)
Definition pan (dx dy dz : F) (c : t F) : t F :=
  set_center
    (vec3_add (center c)
       (mat3_vec (mat3_smul (flit (5 / 10000)) (as_matrix (rot c)))
                 (mkVec3 dx (fneg dy) dz)))
    c.

(** [pan(dx, dy)] with the default [dz=0]. *)
Definition pan2 (dx dy : F) (c : t F) : t F :=
  pan dx dy (flit 0) c.

End Mutators.

Local Open Scope R_scope.

(** [OrbitCamera(W, H, r, fovy)] with the defaults [near=0.1], [far=10]. *)
Definition init (w h : Z) (r fov : R) : t R :=
  mk w h r fov (1 / 10) 10 (mkVec3 0 0 0) Rot.from_eye (mkVec3 0 1 0).

Definition pose (c : t R) : matrix :=
  let res := eye 4 in
  let res := mset 2 3 (radius c) res in
  let rot4 := eye 4 in
  let rot4 := set_block3 (as_matrix (rot c)) rot4 in
  let res := matmul rot4 res in
  sub_col3 3 (center c) res.

Definition view (c : t R) : result matrix :=
  linalg_inv (pose c).

(** [self.H / (2 * np.tan(np.radians(self.fovy) / 2))] and the integer
    halves of the viewport. *)
Definition intrinsics (c : t R) : list R :=
  let focal := IZR (H c) / (2 * tan (radians (fovy c) / 2)) in
  [focal; focal; IZR (W c / 2); IZR (H c / 2)].

Definition perspective (c : t R) : matrix :=
  let y := tan (radians (fovy c) / 2) in
  let aspect := IZR (W c) / IZR (H c) in
  [[1 / (y * aspect); 0; 0; 0];
   [0; - 1 / y; 0; 0];
   [0; 0; - (far c + near c) / (far c - near c);
          - (2 * far c * near c) / (far c - near c)];
   [0; 0; - 1; 0]].

Definition vec3_scale (v : Vec3 R) (s : R) : Vec3 R :=
  mkVec3 (vx v * s) (vy v * s) (vz v * s).

(** [M[:3, 0]] *)
Definition column0 (M : Mat3 R) : Vec3 R := mkVec3 (m00 M) (m10 M) (m20 M).

Definition orbit (dx dy : R) (c : t R) : t R :=
  let side := column0 (as_matrix (rot c)) in
  let rotvec_x := vec3_scale (up c) (radians (- (5 / 100) * dx)) in
  let rotvec_y := vec3_scale side (radians (- (5 / 100) * dy)) in
  set_rot
    (Rot.compose
       (Rot.compose (Rot.from_rotvec rotvec_x) (Rot.from_rotvec rotvec_y))
       (rot c))
    c.

End OrbitCamera.

(** ** Binary64 with rounding *)

(** The finite binary64 values as the reals they are, and an operation as
    the exact one followed by rounding to nearest.  This is where [**] can be
    stated, which the kernel's floats do not have; C's [pow] is taken to
    round correctly. *)
Module Rounded64.
Local Open Scope R_scope.

(** The finite binary64 values: [m * 2 ^ e] with a mantissa of 53 bits. *)
Definition representable (x : R) : Prop :=
  exists m e : Z,
    (Z.abs m < 2 ^ 53)%Z /\ (-1074 <= e <= 971)%Z /\ x = IZR m * powerRZ 2 e.

(** [f] is a binary64 value nearest to [x]. *)
Definition nearest (x f : R) : Prop :=
  representable f /\ forall g, representable g -> Rabs (f - x) <= Rabs (g - x).

(** Rounding to nearest; which of the two values it is at a tie is left
    open. *)
Definition round (x : R) : R := epsilon (inhabits 0) (nearest x).

(** From this magnitude on a result rounds to infinity. *)
Definition overflow_threshold : R := powerRZ 2 1024 - powerRZ 2 970.

Definition overflows (x : R) : bool :=
  if Rle_dec overflow_threshold (Rabs x) then true else false.

(** The literal [1.1]. *)
Definition literal_1_1 : R := round (11 / 10).

(** [a * b] *)
Definition mul (a b : xfloat) : xfloat :=
  match XFloat.mul a b with
  | XFin r =>
      if overflows r then XFloat.inf_of (XFloat.sign_of r) else XFin (round r)
  | special => special
  end.

(** [b ** y] for finite [b > 0] and [y]: Python raises where C's [pow]
    reports a range error for an overflow; an underflow gives the rounded
    value, which may be 0.  The power is taken as rounded to nearest, like
    the product; a C library may return the other neighbour of the exact
    value. *)
Definition pow (b y : R) : result R :=
  if overflows (Rpower b y) then Raise OverflowError
  else Ok (round (Rpower b y)).

(** [self.radius *= 1.1 ** (-delta)] for a finite [delta]. *)
Definition scale (delta : R) (c : OrbitCamera.t xfloat)
    : result (OrbitCamera.t xfloat) :=
  match pow literal_1_1 (- delta) with
  | Raise e => Raise e
  | Ok p =>
      Ok (OrbitCamera.set_radius (mul (OrbitCamera.radius c) (XFin p)) c)
  end.

End Rounded64.

(** ** State and exceptions *)

Module Prog.

(** A method of an object with state [S]: it returns or raises, and leaves the
    object in a new state either way. *)
Definition prog (S A : Type) : Type := S -> result A * S.

Definition ret {S A} (a : A) : prog S A := fun s => (Ok a, s).

Definition raise {S A} (e : exn) : prog S A := fun s => (Raise e, s).

Definition bind {S A B} (m : prog S A) (k : A -> prog S B) : prog S B :=
  fun s =>
    match m s with
    | (Ok a, s') => k a s'
    | (Raise e, s') => (Raise e, s')
    end.

Definition get {S} : prog S S := fun s => (Ok s, s).

Definition modify {S} (f : S -> S) : prog S unit := fun s => (Ok tt, f s).

Definition lift {S A} (r : result A) : prog S A := fun s => (r, s).

End Prog.
Export Prog.

Declare Scope prog_scope.
Delimit Scope prog_scope with prog.
Notation "x <- m ;; k" := (Prog.bind m (fun x => k))
  (at level 61, m at next level, right associativity) : prog_scope.
Notation "m ;; k" := (Prog.bind m (fun _ => k))
  (at level 61, right associativity) : prog_scope.

(** ** Images *)

Module Tensor.
Local Open Scope R_scope.

(** A tensor of shape [h, w, channels]: [h] rows of [w] pixels. *)
Definition image (A : Type) : Type := list (list A).

Definition imap {A B : Type} (f : A -> B) (x : image A) : image B :=
  map (map f) x.

Definition zip_with {A B C : Type} (f : A -> B -> C)
    (xs : list A) (ys : list B) : list C :=
  map (fun p => f (fst p) (snd p)) (combine xs ys).

Definition imap2 {A B C : Type} (f : A -> B -> C)
    (x : image A) (y : image B) : image C :=
  zip_with (zip_with f) x y.

Definition has_shape {A : Type} (h w : nat) (x : image A) : Prop :=
  List.length x = h /\ Forall (fun row => List.length row = w) x.

(** Every pixel of the image satisfies [P]. *)
Definition all_pixels {A : Type} (P : A -> Prop) (x : image A) : Prop :=
  Forall (Forall P) x.

(** [np.zeros((h, w, 3))] *)
Definition zeros (h w : nat) : image (Vec3 R) :=
  repeat (repeat (mkVec3 0 0 0) w) h.

Definition in_unit (x : R) : Prop := 0 <= x <= 1.

(** The three channels of a pixel lie in [0, 1]. *)
Definition unit_pixel (p : Vec3 R) : Prop :=
  in_unit (vx p) /\ in_unit (vy p) /\ in_unit (vz p).

(** [x.clamp(0, 1)] *)
Definition clamp01 (x : R) : R := Rmin (Rmax x 0) 1.

Definition vec3_map (f : R -> R) (p : Vec3 R) : Vec3 R :=
  mkVec3 (f (vx p)) (f (vy p)) (f (vz p)).

(** [p @ q] on the last axis. *)
Definition vec3_dot (p q : Vec3 R) : R :=
  vx p * vx q + vy p * vy q + vz p * vz q.

End Tensor.

(** ** The rasteriser ([nvdiffrast.torch]) *)

Module Dr.
Import Tensor.
Local Open Scope R_scope.

Record Vec2 : Type := mkVec2 { tu : R; tv : R }.

(** One pixel of [rast]: barycentrics [(u, v)], depth [z/w] and the triangle
    id, which is positive exactly where a triangle covers the pixel. *)
Record RastPx : Type := mkRast {
  bary_u : R;
  bary_v : R;
  zw : R;
  tri_id : R
}.

Definition Face : Type := (Z * Z * Z)%type.

(** What can be interpolated over a triangle. *)
Class Attribute (A : Type) : Type := {
  attr_zero : A;
  attr_add : A -> A -> A;
  attr_scale : R -> A -> A
}.

#[export] Instance Attribute_Vec2 : Attribute Vec2 := {|
  attr_zero := mkVec2 0 0;
  attr_add := fun a b => mkVec2 (tu a + tu b) (tv a + tv b);
  attr_scale := fun s a => mkVec2 (s * tu a) (s * tv a)
|}.

#[export] Instance Attribute_Vec3 : Attribute (Vec3 R) := {|
  attr_zero := mkVec3 0 0 0;
  attr_add := fun a b => mkVec3 (vx a + vx b) (vy a + vy b) (vz a + vz b);
  attr_scale := fun s a => mkVec3 (s * vx a) (s * vy a) (s * vz a)
|}.

(** The operations [test_step] calls, with the one thing the shading relies
    on: every output has the resolution of the raster it was computed from. *)
Record ops : Type := mkOps {
  rasterize : list (list R) -> list Face -> nat * nat -> image RastPx;
  interpolate :
    forall A : Type, Attribute A ->
      list A -> image RastPx -> list Face -> image A;
  texture : image (Vec3 R) -> image Vec2 -> image (Vec3 R);
  antialias :
    image (Vec3 R) -> image RastPx -> list (list R) -> list Face ->
    image (Vec3 R);
  rasterize_shape :
    forall pos tri h w, has_shape h w (rasterize pos tri (h, w));
  interpolate_shape :
    forall (A : Type) (HA : Attribute A) attr rast tri h w,
      has_shape h w rast -> has_shape h w (interpolate HA attr rast tri);
  texture_shape :
    forall tex uv h w, has_shape h w uv -> has_shape h w (texture tex uv);
  antialias_shape :
    forall color rast pos tri h w,
      has_shape h w color -> has_shape h w (antialias color rast pos tri)
}.

End Dr.

(** ** Python arithmetic on the measured times, without rounding *)

(** The quotients are the exact ones.  What is stated with them (the bounds
    of the step count, its order in the measured time, the failed
    measurements) does not depend on the last bit of a quotient; the value
    [int] gives does, and is stated with [Binary64] below. *)
Module PyQ.
Local Open Scope Q_scope.

(** [a / b] on floats. *)
Definition truediv (a b : Q) : result Q :=
  if Qeq_bool b 0 then Raise ZeroDivisionError else Ok (a / b).

(** [int(q)]: truncation toward zero. *)
Definition int (q : Q) : Z := Z.quot (Qnum q) (Zpos (Qden q)).

(** [a < b] *)
Definition ltb (a b : Q) : bool := negb (Qle_bool b a).

End PyQ.

(** Modelled from the spec: the class [Mesh] of [mesh.py], which is not among
    the sources; the fields are the attributes [gui.py] reads (vertices, faces,
    UVs, normals with their own index triples, and the albedo texture). *)
Module Mesh.
Import Tensor Dr.

Record t : Type := mk {
  v : list (Vec3 R);
  f : list Face;
  vt : list Vec2;
  ft : list Face;
  vn : list (Vec3 R);
  fn : list Face;
  albedo : image (Vec3 R)
}.

End Mesh.

(** ** [class GUI] *)

Module GUI.
Import Tensor Dr Np.
Local Open Scope string_scope.

(** The options [GUI.__init__] reads. *)
Record Opt : Type := mkOpt {
  opt_W : Z;
  opt_H : Z;
  opt_radius : R;
  opt_fovy : R
}.

(** What one call of [self.trainer.train_gui(self.loader, step=n)] gives:
    the time the CUDA events measured around it, and its outputs. *)
Record Run : Type := mkRun {
  elapsed_time : Q;
  loss : Q;
  lr : Q
}.

(** The value of a GUI item; a formatted string is kept as its arguments. *)
Inductive item : Type :=
| Text (s : string)
| TimeLog (t : Q) (fps : Z)
| TimeLog64 (t : PrimFloat.float) (fps : Z)
| TrainLog (step steps : Z) (loss lr : Q)
| Texture (buffer : image (Vec3 R)).

(** The attributes of a [GUI] object; [dpg] holds the values of the GUI
    items and [disk] the files [Mesh.write] has written.  The CUDA context,
    the generator and the latent codes are left out. *)
Record t : Type := mk {
  W : Z;
  H : Z;
  cam : OrbitCamera.t R;
  bg_color : Vec3 R;
  render_buffer : image (Vec3 R);
  need_update : bool;
  light_dir : Z * Z;
  ambient_ratio : R;
  mode : string;
  debug : bool;
  mesh : option Mesh.t;
  training : bool;
  step : Z;
  train_steps : Z;
  dpg : list (string * item);
  disk : list (string * Mesh.t)
}.

Definition set_render_buffer (x : image (Vec3 R)) (g : t) : t :=
  mk (W g) (H g) (cam g) (bg_color g) x (need_update g) (light_dir g)
     (ambient_ratio g) (mode g) (debug g) (mesh g) (training g) (step g)
     (train_steps g) (dpg g) (disk g).

Definition set_need_update (x : bool) (g : t) : t :=
  mk (W g) (H g) (cam g) (bg_color g) (render_buffer g) x (light_dir g)
     (ambient_ratio g) (mode g) (debug g) (mesh g) (training g) (step g)
     (train_steps g) (dpg g) (disk g).

Definition set_ambient_ratio (x : R) (g : t) : t :=
  mk (W g) (H g) (cam g) (bg_color g) (render_buffer g) (need_update g)
     (light_dir g) x (mode g) (debug g) (mesh g) (training g) (step g)
     (train_steps g) (dpg g) (disk g).

Definition set_mode (x : string) (g : t) : t :=
  mk (W g) (H g) (cam g) (bg_color g) (render_buffer g) (need_update g)
     (light_dir g) (ambient_ratio g) x (debug g) (mesh g) (training g)
     (step g) (train_steps g) (dpg g) (disk g).

Definition set_mesh (x : option Mesh.t) (g : t) : t :=
  mk (W g) (H g) (cam g) (bg_color g) (render_buffer g) (need_update g)
     (light_dir g) (ambient_ratio g) (mode g) (debug g) x (training g)
     (step g) (train_steps g) (dpg g) (disk g).

Definition set_step (x : Z) (g : t) : t :=
  mk (W g) (H g) (cam g) (bg_color g) (render_buffer g) (need_update g)
     (light_dir g) (ambient_ratio g) (mode g) (debug g) (mesh g)
     (training g) x (train_steps g) (dpg g) (disk g).

Definition set_train_steps (x : Z) (g : t) : t :=
  mk (W g) (H g) (cam g) (bg_color g) (render_buffer g) (need_update g)
     (light_dir g) (ambient_ratio g) (mode g) (debug g) (mesh g)
     (training g) (step g) x (dpg g) (disk g).

Definition set_dpg (x : list (string * item)) (g : t) : t :=
  mk (W g) (H g) (cam g) (bg_color g) (render_buffer g) (need_update g)
     (light_dir g) (ambient_ratio g) (mode g) (debug g) (mesh g)
     (training g) (step g) (train_steps g) x (disk g).

Definition set_disk (x : list (string * Mesh.t)) (g : t) : t :=
  mk (W g) (H g) (cam g) (bg_color g) (render_buffer g) (need_update g)
     (light_dir g) (ambient_ratio g) (mode g) (debug g) (mesh g)
     (training g) (step g) (train_steps g) (dpg g) x.

Fixpoint assign (tag : string) (x : item) (items : list (string * item))
    : list (string * item) :=
  match items with
  | [] => [(tag, x)]
  | (k, y) :: rest =>
      if String.eqb k tag then (k, x) :: rest else (k, y) :: assign tag x rest
  end.

(** [dpg.set_value(tag, x)] *)
Definition set_value (tag : string) (x : item) : prog t unit :=
  modify (fun g => set_dpg (assign tag x (dpg g)) g).

Local Open Scope prog_scope.

(** The assignments of [__init__], with the item values [register_dpg]
    gives. *)
Definition fresh (opt : Opt) : t :=
  let buffer :=
    zeros (Z.to_nat (opt_W opt)) (Z.to_nat (opt_H opt)) in
  mk (opt_W opt) (opt_H opt)
     (OrbitCamera.init (opt_W opt) (opt_H opt) (opt_radius opt) (opt_fovy opt))
     (mkVec3 1 1 1)%R
     buffer
     true
     (0, 0)%Z
     (5 / 10)%R
     "lambertian"
     true
     None
     false
     0%Z
     16%Z
     [("_texture", Texture buffer);
      ("_log_infer_time", Text "no data");
      ("_log_get_mesh", Text "");
      ("_log_save_mesh", Text "");
      ("_log_train_log", Text "")]
     [].

Section Methods.
(** The collaborators: the trainer, the rasteriser, and the time the CUDA
    events measure around a render. *)
Variable trainer : Z -> Run.
Variable dr : Dr.ops.
Variable infer_time : Q.

Definition train_step : prog t unit :=
  g <- get ;;
  let outputs := trainer (train_steps g) in
  let t := elapsed_time outputs in
  modify (fun g => set_step (step g + train_steps g) g) ;;
  modify (set_need_update true) ;;
  fps <- lift (PyQ.truediv 1000 t) ;;
  set_value "_log_train_time" (TimeLog t (PyQ.int fps)) ;;
  g <- get ;;
  set_value "_log_train_log"
    (TrainLog (step g) (train_steps g) (loss outputs) (lr outputs)) ;;
  (* dynamic train steps: max allowed train time per-frame is 500 ms *)
  g <- get ;;
  per_step <- lift (PyQ.truediv t (inject_Z (train_steps g))) ;;
  let full_t := (per_step * 16)%Q in
  ratio <- lift (PyQ.truediv (16 * 500) full_t) ;;
  let train_steps' := Z.min 16 (Z.max 4 (PyQ.int ratio)) in
  if PyQ.ltb (inject_Z (train_steps g) * 1.2) (inject_Z train_steps')
     || PyQ.ltb (inject_Z train_steps') (inject_Z (train_steps g) * 0.8)
  then modify (set_train_steps train_steps')
  else ret tt.

(** [safe_normalize(x, eps=1e-20)] *)
Definition safe_normalize (x : image (Vec3 R)) : image (Vec3 R) :=
  let eps := (/ 10 ^ 20)%R in
  imap (fun p =>
          let d := sqrt (Rmax (vec3_dot p p) eps) in
          vec3_map (fun c => c / d)%R p)
       x.

Definition pad_one (p : Vec3 R) : list R := [vx p; vy p; vz p; 1%R].

Definition test_step : prog t unit :=
  g <- get ;;
  if need_update g then
    match mesh g with
    | None => ret tt
    | Some m =>
        (* do MVP for vertices *)
        mv <- lift (OrbitCamera.view (cam g)) ;;
        let proj := OrbitCamera.perspective (cam g) in
        let mvp := matmul proj mv in
        let v_clip := matmul (map pad_one (Mesh.v m)) (transpose mvp) in
        let rast :=
          rasterize dr v_clip (Mesh.f m) (Z.to_nat (H g), Z.to_nat (W g)) in
        buffer <-
          (if mode g =? "depth" then
             ret (imap (fun p => mkVec3 (zw p) (zw p) (zw p)) rast)
           else
             let texc := interpolate dr _ (Mesh.vt m) rast (Mesh.ft m) in
             let albedo := texture dr (Mesh.albedo m) texc in
             let albedo :=
               imap2 (fun r a =>
                        if Rlt_dec 0 (tri_id r) then a else mkVec3 0 0 0)%R
                     rast albedo in
             let albedo :=
               imap (vec3_map clamp01)
                    (antialias dr albedo rast v_clip (Mesh.f m)) in
             if mode g =? "albedo" then ret albedo
             else
               let normal := interpolate dr _ (Mesh.vn m) rast (Mesh.fn m) in
               let normal := safe_normalize normal in
               if mode g =? "normal" then
                 ret (imap (vec3_map (fun c => (c + 1) / 2)%R) normal)
               else if mode g =? "lambertian" then
                 let theta := radians (IZR (fst (light_dir g))) in
                 let phi := radians (IZR (snd (light_dir g))) in
                 let light_d :=
                   (mkVec3 (sin theta * sin phi) (cos theta)
                           (sin theta * cos phi))%R in
                 let lambertian :=
                   imap (fun n =>
                           ambient_ratio g
                           + (1 - ambient_ratio g)
                             * Rmax (vec3_dot n light_d) 0)%R
                        normal in
                 ret (imap2 (fun a l => vec3_map (fun c => c * l)%R a)
                            albedo lambertian)
               else raise UnboundLocalError) ;;
        modify (set_render_buffer buffer) ;;
        modify (set_need_update false) ;;
        fps <- lift (PyQ.truediv 1000 infer_time) ;;
        set_value "_log_infer_time" (TimeLog infer_time (PyQ.int fps)) ;;
        g <- get ;;
        set_value "_texture" (Texture (render_buffer g))
    end
  else ret tt.

(** [GUI(opt)]: the attributes are assigned, then [test_step] runs once. *)
Definition init (opt : Opt) : t := snd (test_step (fresh opt)).

(** The "save" button. *)
Definition callback_save_mesh : prog t unit :=
  g <- get ;;
  match mesh g with
  | None => raise AttributeError (* [None.write] *)
  | Some m =>
      modify (fun g => set_disk (("mesh.obj", m) :: disk g) g) ;;
      set_value "_log_save_mesh" (Text "saved mesh!")
  end.

(** The "get" button; [generated] is what [self.model.generate()] returns. *)
Definition callback_get_mesh (generated : Mesh.t) : prog t unit :=
  set_value "_log_get_mesh" (Text "generating...") ;;
  modify (set_mesh (Some generated)) ;;
  modify (set_need_update true) ;;
  set_value "_log_get_mesh" (Text "generated").

Definition callback_change_mode (app_data : string) : prog t unit :=
  modify (set_mode app_data) ;;
  modify (set_need_update true).

Definition callback_set_abm_ratio (app_data : R) : prog t unit :=
  modify (set_ambient_ratio app_data) ;;
  modify (set_need_update true).

(** One iteration of the loop of [render]. *)
Definition render_frame : prog t unit :=
  g <- get ;;
  (if training g then train_step else ret tt) ;;
  test_step.

End Methods.

End GUI.

(** ** The callbacks of [register_dpg] *)

Module Handlers.
Import GUI.
Local Open Scope string_scope.
Local Open Scope prog_scope.

Definition set_cam (x : OrbitCamera.t R) (g : GUI.t) : GUI.t :=
  GUI.mk (W g) (H g) x (bg_color g) (render_buffer g) (need_update g)
    (light_dir g) (ambient_ratio g) (mode g) (debug g) (mesh g) (training g)
    (step g) (train_steps g) (dpg g) (disk g).

Definition set_light_dir (x : Z * Z) (g : GUI.t) : GUI.t :=
  GUI.mk (W g) (H g) (cam g) (bg_color g) (render_buffer g) (need_update g)
    x (ambient_ratio g) (mode g) (debug g) (mesh g) (training g)
    (step g) (train_steps g) (dpg g) (disk g).

Definition set_training (x : bool) (g : GUI.t) : GUI.t :=
  GUI.mk (W g) (H g) (cam g) (bg_color g) (render_buffer g) (need_update g)
    (light_dir g) (ambient_ratio g) (mode g) (debug g) (mesh g) x
    (step g) (train_steps g) (dpg g) (disk g).

(** [cam.fovy = x] *)
Definition set_fovy (x : R) (c : OrbitCamera.t R) : OrbitCamera.t R :=
  OrbitCamera.mk (OrbitCamera.W c) (OrbitCamera.H c) (OrbitCamera.radius c) x
    (OrbitCamera.near c) (OrbitCamera.far c) (OrbitCamera.center c)
    (OrbitCamera.rot c) (OrbitCamera.up c).

(** The [user_data] of the two light sliders: 0 for theta, 1 for phi. *)
Inductive angle : Type := Theta | Phi.

(** [a[i] = x] on the integer array [light_dir]: the float is truncated. *)
Definition store_angle (i : angle) (x : Q) (a : Z * Z) : Z * Z :=
  match i with
  | Theta => (PyQ.int x, snd a)
  | Phi => (fst a, PyQ.int x)
  end.

(** [dpg.configure_item(tag, label=...)]; the label of a button is kept as
    the value of its item. *)
Definition configure_label (tag label : string) : prog GUI.t unit :=
  set_value tag (Text label).

Section Callbacks.
(** [str] of an array, and whether the primary window has the focus when the
    event arrives. *)
Variable str : Np.matrix -> string.
Variable focused : bool.

(** [if self.debug: dpg.set_value("_log_pose", str(self.cam.pose))] *)
Definition log_pose : prog GUI.t unit :=
  g <- get ;;
  if debug g then set_value "_log_pose" (Text (str (OrbitCamera.pose (cam g))))
  else ret tt.

(** The "start"/"stop" button. *)
Definition callback_train : prog GUI.t unit :=
  g <- get ;;
  if training g then
    modify (set_training false) ;;
    configure_label "_button_train" "start"
  else
    modify (set_training true) ;;
    configure_label "_button_train" "stop".

Definition callback_set_fovy (app_data : Z) : prog GUI.t unit :=
  modify (fun g => set_cam (set_fovy (IZR app_data) (cam g)) g) ;;
  modify (set_need_update true).

Definition callback_set_light_dir (app_data : Q) (user_data : angle)
    : prog GUI.t unit :=
  modify (fun g => set_light_dir (store_angle user_data app_data (light_dir g)) g) ;;
  modify (set_need_update true).

(** Left drag; [app_data] is [(button, dx, dy)]. *)
Definition callback_camera_drag_rotate (app_data : R * R * R)
    : prog GUI.t unit :=
  if negb focused then ret tt
  else
    let dx := snd (fst app_data) in
    let dy := snd app_data in
    modify (fun g => set_cam (OrbitCamera.orbit dx dy (cam g)) g) ;;
    modify (set_need_update true) ;;
    log_pose.

(** Mouse wheel. *)
Definition callback_camera_wheel_scale (app_data : R) : prog GUI.t unit :=
  if negb focused then ret tt
  else
    let delta := app_data in
    modify (fun g => set_cam (OrbitCamera.scale delta (cam g)) g) ;;
    modify (set_need_update true) ;;
    log_pose.

(** Right drag. *)
Definition callback_camera_drag_pan (app_data : R * R * R)
    : prog GUI.t unit :=
  if negb focused then ret tt
  else
    let dx := snd (fst app_data) in
    let dy := snd app_data in
    modify (fun g => set_cam (OrbitCamera.pan2 dx dy (cam g)) g) ;;
    modify (set_need_update true) ;;
    log_pose.

End Callbacks.

End Handlers.

(** ** Binary64 on the kernel's floats *)

(** [train_step] with the measured time as the binary64 value it is: every
    division and product rounds as the hardware does. *)
Module Binary64.
Import PrimFloat FloatOps SpecFloat GUI.
Local Open Scope string_scope.
Local Open Scope prog_scope.

(** [float(n)], for an [int] below [2 ** 1024]. *)
Definition of_int (n : Z) : float :=
  SF2Prim (binary_normalize prec emax n 0 false).

(** [a / b] *)
Definition truediv (a b : float) : result float :=
  if PrimFloat.eqb b 0%float then Raise ZeroDivisionError
  else Ok (PrimFloat.div a b).

(** [int(x)]: truncation toward zero. *)
Definition int (x : float) : result Z :=
  match Prim2SF x with
  | S754_zero _ => Ok 0%Z
  | S754_finite s m e =>
      let v :=
        if (0 <=? e)%Z then Z.shiftl (Z.pos m) e
        else Z.shiftr (Z.pos m) (- e) in
      Ok (if s then (- v)%Z else v)
  | S754_infinity _ => Raise OverflowError
  | S754_nan => Raise ValueError
  end.

Record Run : Type := mkRun {
  elapsed_time : float;
  loss : Q;
  lr : Q
}.

Definition train_step (trainer : Z -> Run) : prog GUI.t unit :=
  g <- get ;;
  let outputs := trainer (train_steps g) in
  let t := elapsed_time outputs in
  modify (fun g => set_step (step g + train_steps g) g) ;;
  modify (set_need_update true) ;;
  q <- lift (truediv 1000%float t) ;;
  fps <- lift (int q) ;;
  set_value "_log_train_time" (TimeLog64 t fps) ;;
  g <- get ;;
  set_value "_log_train_log"
    (TrainLog (step g) (train_steps g) (loss outputs) (lr outputs)) ;;
  (* dynamic train steps: max allowed train time per-frame is 500 ms *)
  g <- get ;;
  per_step <- lift (truediv t (of_int (train_steps g))) ;;
  let full_t := PrimFloat.mul per_step 16%float in
  ratio <- lift (truediv 8000%float full_t) ;;
  candidate <- lift (int ratio) ;;
  let train_steps' := Z.min 16 (Z.max 4 candidate) in
  if PrimFloat.ltb
       (PrimFloat.mul (of_int (train_steps g)) 0x1.3333333333333p+0%float)
       (of_int train_steps')
     || PrimFloat.ltb (of_int train_steps')
          (PrimFloat.mul (of_int (train_steps g)) 0x1.999999999999ap-1%float)
  then modify (set_train_steps train_steps')
  else ret tt.

End Binary64.

(** * Vocabulary of the properties *)

(** ** The step scheduler *)

(** The scheduler as the specification words it. *)
Module SchedulerSpec.
Local Open Scope Q_scope.

(** [next_units], for a given way [rnd] of making the quotient an integer. *)
Definition next_units (rnd : Q -> Z) (t_ms : Q) (prev_units : Z) : Z :=
  let full_t := t_ms / inject_Z prev_units * 16 in
  Z.min 16 (Z.max 4 (rnd (16 * 500 / full_t))).

(** [next] is more than 20% away from [cur]. *)
Definition deviates (next cur : Z) : bool :=
  (cur <? 5 * Z.abs (next - cur))%Z.

Definition unit_size_after (rnd : Q -> Z) (t_ms : Q) (unit_size : Z) : Z :=
  let next := next_units rnd t_ms unit_size in
  if deviates next unit_size then next else unit_size.

End SchedulerSpec.

(** The scheduler as the specification words it, in binary64. *)
Module SchedulerSpec64.
Import PrimFloat FloatOps SpecFloat.

(** [16 * 500 / full_t] with [full_t = t_ms / prev_units * 16]. *)
Definition quotient (t_ms : float) (prev_units : Z) : float :=
  PrimFloat.div 8000%float
    (PrimFloat.mul (PrimFloat.div t_ms (Binary64.of_int prev_units)) 16%float).

Definition is_finite (x : float) : bool :=
  match Prim2SF x with
  | S754_zero _ | S754_finite _ _ _ => true
  | _ => false
  end.

(** The integer part of a finite [x]. *)
Definition trunc (x : float) : Z :=
  match Binary64.int x with
  | Ok z => z
  | Raise _ => 0%Z
  end.

(** Rounding a non-negative [x] to the nearest integer. *)
Definition round (x : float) : Z := trunc (PrimFloat.add x 0.5%float).

Definition next_units (rnd : float -> Z) (t_ms : float) (prev_units : Z) : Z :=
  Z.min 16 (Z.max 4 (rnd (quotient t_ms prev_units))).

Definition unit_size_after (rnd : float -> Z) (t_ms : float) (unit_size : Z)
    : Z :=
  let next := next_units rnd t_ms unit_size in
  if SchedulerSpec.deviates next unit_size then next else unit_size.

(** The measurement can be used: no divisor of [train_step] is zero and
    the two quotients it makes integers of are finite. *)
Definition measurable (t_ms : float) (prev_units : Z) : bool :=
  negb (PrimFloat.eqb t_ms 0%float)
  && is_finite (PrimFloat.div 1000%float t_ms)
  && negb (PrimFloat.eqb (Binary64.of_int prev_units) 0%float)
  && negb (PrimFloat.eqb
             (PrimFloat.mul (PrimFloat.div t_ms (Binary64.of_int prev_units))
                16%float)
             0%float)
  && is_finite (quotient t_ms prev_units).

End SchedulerSpec64.

(** ** The camera *)

Module CameraSpec.
Import OrbitCamera.

Section Frames.
Context {F : Type}.

(** [c'] is [c] up to its radius. *)
Definition same_but_radius (c c' : OrbitCamera.t F) : Prop :=
  W c' = W c /\ H c' = H c /\ fovy c' = fovy c /\ near c' = near c
  /\ far c' = far c /\ center c' = center c /\ rot c' = rot c
  /\ up c' = up c.

(** [c'] is [c] up to its look-at point. *)
Definition same_but_center (c c' : OrbitCamera.t F) : Prop :=
  W c' = W c /\ H c' = H c /\ fovy c' = fovy c /\ near c' = near c
  /\ far c' = far c /\ radius c' = radius c /\ rot c' = rot c
  /\ up c' = up c.

(** [c'] is [c] up to its rotation. *)
Definition same_but_rot (c c' : OrbitCamera.t F) : Prop :=
  W c' = W c /\ H c' = H c /\ fovy c' = fovy c /\ near c' = near c
  /\ far c' = far c /\ radius c' = radius c /\ center c' = center c
  /\ up c' = up c.

End Frames.

Definition vec3_inject (v : Vec3 R) : Vec3 xfloat :=
  mkVec3 (XFin (vx v)) (XFin (vy v)) (XFin (vz v)).

Definition mat3_inject (M : Mat3 R) : Mat3 xfloat :=
  mkMat3 (XFin (m00 M)) (XFin (m01 M)) (XFin (m02 M))
         (XFin (m10 M)) (XFin (m11 M)) (XFin (m12 M))
         (XFin (m20 M)) (XFin (m21 M)) (XFin (m22 M)).

(** The rotation about the unit vector [axis] by [degrees] degrees
    (Rodrigues' formula). *)
Definition rotation_about (axis : Vec3 R) (degrees : R) : Rotation R :=
  let angle := Np.radians degrees in
  let K := Rot.cross axis in
  Rot.mat3_add Rot.identity
    (Rot.mat3_add (mat3_smul (sin angle) K)
                  (mat3_smul (1 - cos angle)%R (Rot.mat3_mul K K))).

Definition unit_vector (v : Vec3 R) : Prop :=
  (vx v * vx v + vy v * vy v + vz v * vz v = 1)%R.

(** The columns of [M] have length 1 and are orthogonal to each other. *)
Definition orthonormal (M : Mat3 R) : Prop :=
  Rot.mat3_mul (Rot.transpose M) M = Rot.identity.

Definition det3 (M : Mat3 R) : R :=
  (m00 M * (m11 M * m22 M - m12 M * m21 M)
   - m01 M * (m10 M * m22 M - m12 M * m20 M)
   + m02 M * (m10 M * m21 M - m11 M * m20 M))%R.

(** The camera states of the data model: a positive radius, an orthonormal
    rotation and the world's up axis. *)
Definition well_formed (c : OrbitCamera.t R) : Prop :=
  (0 < radius c)%R /\ orthonormal (rot c) /\ up c = mkVec3 0%R 1%R 0%R.

(** The depth [z/w] that [perspective] gives a point at distance [d] straight
    in front of the camera. *)
Definition ndc_depth (c : OrbitCamera.t R) (d : R) : R :=
  match Np.matvec (perspective c) [0; 0; - d; 1]%R with
  | [_; _; z; w] => (z / w)%R
  | _ => 0%R
  end.

(** A camera with finite numbers, among the extended ones. *)
Definition inject (c : OrbitCamera.t R) : OrbitCamera.t xfloat :=
  OrbitCamera.mk (W c) (H c) (XFin (radius c)) (XFin (fovy c))
    (XFin (near c)) (XFin (far c)) (vec3_inject (center c))
    (mat3_inject (rot c)) (vec3_inject (up c)).

End CameraSpec.

(** ** The camera in space *)

Module SpaceSpec.
Import OrbitCamera.
Local Open Scope R_scope.

(** The position of the camera: the translation of [pose]. *)
Definition position (c : OrbitCamera.t R) : Vec3 R :=
  mkVec3 (nth 3 (nth 0 (pose c) []) 0) (nth 3 (nth 1 (pose c) []) 0)
         (nth 3 (nth 2 (pose c) []) 0).

(** The square of the distance from [p] to [q]. *)
Definition dist2 (p q : Vec3 R) : R :=
  (vx p - vx q) * (vx p - vx q) + (vy p - vy q) * (vy p - vy q)
  + (vz p - vz q) * (vz p - vz q).

Definition vec3_opp (p : Vec3 R) : Vec3 R := mkVec3 (- vx p) (- vy p) (- vz p).

(** The first entry of [intrinsics]. *)
Definition focal (c : OrbitCamera.t R) : R := nth 0 (intrinsics c) 0.

End SpaceSpec.

(** ** The stages of a render *)

(** The stages of [test_step], named, so that its result can be stated. *)
Module RenderSpec.
Import Tensor Dr Np GUI.
Local Open Scope string_scope.

Section Stages.
Variable dr : Dr.ops.

(** [v_clip] *)
Definition clip_positions (g : GUI.t) (m : Mesh.t) (mv : matrix) : matrix :=
  matmul (map pad_one (Mesh.v m))
         (transpose (matmul (OrbitCamera.perspective (cam g)) mv)).

(** [rast] *)
Definition raster (g : GUI.t) (m : Mesh.t) (mv : matrix) : image RastPx :=
  rasterize dr (clip_positions g m mv) (Mesh.f m)
    (Z.to_nat (H g), Z.to_nat (W g)).

Definition depth_image (g : GUI.t) (m : Mesh.t) (mv : matrix)
    : image (Vec3 R) :=
  imap (fun p => mkVec3 (zw p) (zw p) (zw p)) (raster g m mv).

(** [albedo], after the clamp. *)
Definition albedo_image (g : GUI.t) (m : Mesh.t) (mv : matrix)
    : image (Vec3 R) :=
  let rast := raster g m mv in
  imap (vec3_map clamp01)
    (antialias dr
       (imap2 (fun r a => if Rlt_dec 0 (tri_id r) then a else mkVec3 0 0 0)%R
          rast
          (texture dr (Mesh.albedo m)
             (interpolate dr _ (Mesh.vt m) rast (Mesh.ft m))))
       rast (clip_positions g m mv) (Mesh.f m)).

(** [normal], after [safe_normalize]. *)
Definition normal_image (g : GUI.t) (m : Mesh.t) (mv : matrix)
    : image (Vec3 R) :=
  safe_normalize (interpolate dr _ (Mesh.vn m) (raster g m mv) (Mesh.fn m)).

(** [light_d] *)
Definition light_d (g : GUI.t) : Vec3 R :=
  let theta := radians (IZR (fst (light_dir g))) in
  let phi := radians (IZR (snd (light_dir g))) in
  (mkVec3 (sin theta * sin phi) (cos theta) (sin theta * cos phi))%R.

(** The lighting term at a pixel with normal [n]. *)
Definition lit (g : GUI.t) (n : Vec3 R) : R :=
  (ambient_ratio g + (1 - ambient_ratio g) * Rmax (vec3_dot n (light_d g)) 0)%R.

(** [buffer], by mode. *)
Definition shaded (g : GUI.t) (m : Mesh.t) (mv : matrix)
    : result (image (Vec3 R)) :=
  if mode g =? "depth" then Ok (depth_image g m mv)
  else if mode g =? "albedo" then Ok (albedo_image g m mv)
  else if mode g =? "normal" then
    Ok (imap (vec3_map (fun c => (c + 1) / 2)%R) (normal_image g m mv))
  else if mode g =? "lambertian" then
    Ok (imap2 (fun a l => vec3_map (fun c => c * l)%R a)
          (albedo_image g m mv) (imap (lit g) (normal_image g m mv)))
  else Raise UnboundLocalError.

(** The state after a render that took [t] ms has stored and shown
    [buffer]. *)
Definition present (t : Q) (buffer : image (Vec3 R)) (g : GUI.t) : GUI.t :=
  let g1 := set_need_update false (set_render_buffer buffer g) in
  let g2 :=
    set_dpg
      (assign "_log_infer_time" (TimeLog t (PyQ.int (1000 / t))) (dpg g1)) g1 in
  set_dpg (assign "_texture" (Texture buffer) (dpg g2)) g2.

(** Choosing [mode] in the combo box, then one [test_step]. *)
Definition render_in_mode (t : Q) (mode : string) : prog GUI.t unit :=
  (callback_change_mode mode ;; test_step dr t)%prog.

End Stages.


End RenderSpec.

(** ** The state of the viewer *)

Module StateSpec.
Import Tensor GUI CameraSpec.

(** The value of the item [tag]. *)
Fixpoint item_of (tag : string) (items : list (string * item)) : option item :=
  match items with
  | [] => None
  | (k, x) :: rest => if String.eqb k tag then Some x else item_of tag rest
  end.



(** What [train_step] and [test_step] leave alone. *)
Definition same_scene (g g' : GUI.t) : Prop :=
  W g' = W g /\ H g' = H g /\ cam g' = cam g /\ mesh g' = mesh g
  /\ mode g' = mode g /\ light_dir g' = light_dir g
  /\ ambient_ratio g' = ambient_ratio g /\ training g' = training g
  /\ disk g' = disk g.

(** The states a session keeps the viewer in: a camera with an orthonormal
    rotation, the world's up axis, a field of view below 180 degrees, the
    clipping planes in order and the viewport of the window; a step count
    within its bounds; and an ambient share within [0, 1]. *)
Definition reachable (g : GUI.t) : Prop :=
  orthonormal (OrbitCamera.rot (cam g))
  /\ OrbitCamera.up (cam g) = mkVec3 0%R 1%R 0%R
  /\ (0 < OrbitCamera.fovy (cam g) < 180)%R
  /\ (0 < OrbitCamera.near (cam g) < OrbitCamera.far (cam g))%R
  /\ OrbitCamera.W (cam g) = W g /\ OrbitCamera.H (cam g) = H g
  /\ (4 <= train_steps g <= 16)%Z
  /\ (0 <= step g)%Z
  /\ in_unit (ambient_ratio g).

End StateSpec.

(** ** A session *)

(** The loop of [render] with the events dearpygui delivers between the
    frames, one after the other. *)
Module Session.
Import Tensor GUI Handlers.

(** What happens to a viewer: a frame of the loop, with the trainer and the
    render time of that frame, or a callback with the data dearpygui passes
    to it. *)
Inductive event : Type :=
| Frame (trainer : Z -> Run) (infer_time : Q)
| GetMesh (generated : Mesh.t)
| SaveMesh
| ToggleTrain
| ChangeMode (mode : string)
| SetFovy (degrees : Z)
| SetLightDir (value : Q) (which : angle)
| SetAmbient (value : R)
| DragRotate (focused : bool) (app_data : R * R * R)
| Wheel (focused : bool) (delta : R)
| DragPan (focused : bool) (app_data : R * R * R).

Section Loop.
Variable dr : Dr.ops.
Variable str : Np.matrix -> string.

Definition handle (e : event) : prog GUI.t unit :=
  match e with
  | Frame trainer infer_time => render_frame trainer dr infer_time
  | GetMesh generated => callback_get_mesh generated
  | SaveMesh => callback_save_mesh
  | ToggleTrain => callback_train
  | ChangeMode mode => callback_change_mode mode
  | SetFovy degrees => callback_set_fovy degrees
  | SetLightDir value which => callback_set_light_dir value which
  | SetAmbient value => callback_set_abm_ratio value
  | DragRotate focused app_data =>
      callback_camera_drag_rotate str focused app_data
  | Wheel focused delta => callback_camera_wheel_scale str focused delta
  | DragPan focused app_data => callback_camera_drag_pan str focused app_data
  end.

(** The state after the events [es].  An exception does not stop [run]; the
    states of a session that an exception ends are those after a prefix of
    [es]. *)
Fixpoint run (es : list event) (g : GUI.t) : GUI.t :=
  match es with
  | [] => g
  | e :: rest => run rest (snd (handle e g))
  end.

End Loop.

(** The values the sliders are laid out for: 1 to 120 degrees for the field
    of view, 0 to 1 for the ambient share. *)
Definition in_range (e : event) : Prop :=
  match e with
  | SetFovy degrees => (1 <= degrees <= 120)%Z
  | SetAmbient value => in_unit value
  | _ => True
  end.

End Session.

(** ** Sample data *)

Module Sample.
Import Tensor Dr GUI.
Local Open Scope R_scope.

(** A viewer as [main] starts it with its default options, except for the
    viewport. *)
Definition viewer_512 : GUI.t := fresh (mkOpt 512 512 3 50).

(** A trainer whose every call is measured to take [t] ms. *)
Definition constant_trainer (t : Q) : Z -> Run := fun _ => mkRun t 0 0.

(** A trainer that takes [k] ms for every unit of work. *)
Definition per_unit_trainer (k : Q) : Z -> Run :=
  fun n => mkRun (k * inject_Z n)%Q 0 0.

(** The camera of the specification's scenario: radius 3, vertical field of
    view 50 degrees, a 512 x 512 viewport. *)
Definition camera_512 : OrbitCamera.t R := OrbitCamera.init 512 512 3 50.

(** A rasteriser for which the fragment [px] covers every pixel, every
    interpolated attribute is zero and every texture sample is [color]. *)
Definition uniform_raster (px : RastPx) (color : Vec3 R) : Dr.ops.
Proof.
  refine
    (mkOps
       (fun _ _ res => repeat (repeat px (snd res)) (fst res))
       (fun A HA _ rast _ => imap (fun _ => attr_zero) rast)
       (fun _ uv => imap (fun _ => color) uv)
       (fun x _ _ _ => x)
       _ _ _ _).
  - intros _ _ h w. split; [ apply repeat_length | ].
    apply Forall_forall. intros row Hin.
    apply repeat_spec in Hin. subst row. apply repeat_length.
  - intros A HA _ rast _ h w [Hh Hw]. split.
    + unfold imap. rewrite length_map. exact Hh.
    + apply Forall_map. eapply Forall_impl; [ | exact Hw ].
      intros row Hrow. cbn. rewrite length_map. exact Hrow.
  - intros _ uv h w [Hh Hw]. split.
    + unfold imap. rewrite length_map. exact Hh.
    + apply Forall_map. eapply Forall_impl; [ | exact Hw ].
      intros row Hrow. cbn. rewrite length_map. exact Hrow.
  - intros x _ _ _ h w Hs. exact Hs.
Defined.

(** A fragment of triangle 1 at depth [z/w = depth]. *)
Definition fragment (depth : R) : RastPx := mkRast (1 / 3) (1 / 3) depth 1.

Definition grey : Vec3 R := mkVec3 (1 / 2) (1 / 2) (1 / 2).

(** A mesh of one triangle with a one-texel texture. *)
Definition triangle : Mesh.t :=
  Mesh.mk [mkVec3 0 0 0; mkVec3 1 0 0; mkVec3 0 1 0] [(0, 1, 2)%Z]
          [mkVec2 0 0; mkVec2 1 0; mkVec2 0 1] [(0, 1, 2)%Z]
          [mkVec3 0 0 1; mkVec3 0 0 1; mkVec3 0 0 1] [(0, 1, 2)%Z]
          [[mkVec3 1 (1 / 2) 0]].

(** A viewer with a 2 x 2 viewport that shows [triangle] in [mode]. *)
Definition viewer_2 (mode : string) : GUI.t :=
  set_mode mode (set_mesh (Some triangle) (fresh (mkOpt 2 2 3 50))).

(** A binary64 trainer whose every call is measured to take [t] ms. *)
Definition constant_trainer64 (t : PrimFloat.float) : Z -> Binary64.Run :=
  fun _ => Binary64.mkRun t 0 0.





End Sample.

(** * Properties *)

(** ** Running a method step by step *)

Section ProgLaws.
Context {S A B : Type}.

Lemma bind_get (k : S -> prog S B) (s : S) : Prog.bind get k s = k s s.
Proof. reflexivity. Qed.

Lemma bind_modify (f : S -> S) (k : unit -> prog S B) (s : S) :
  Prog.bind (modify f) k s = k tt (f s).
Proof. reflexivity. Qed.

Lemma bind_ret (a : A) (k : A -> prog S B) (s : S) :
  Prog.bind (ret a) k s = k a s.
Proof. reflexivity. Qed.

Lemma bind_lift_ok (a : A) (k : A -> prog S B) (s : S) :
  Prog.bind (lift (Ok a)) k s = k a s.
Proof. reflexivity. Qed.

Lemma bind_lift_raise (e : exn) (k : A -> prog S B) (s : S) :
  Prog.bind (lift (Raise e)) k s = (Raise e, s).
Proof. reflexivity. Qed.

Lemma bind_raise (e : exn) (k : A -> prog S B) (s : S) :
  Prog.bind (raise e) k s = (Raise e, s).
Proof. reflexivity. Qed.

Lemma bind_bind {C : Type} (m : prog S A) (k : A -> prog S B)
    (k' : B -> prog S C) (s : S) :
  Prog.bind (Prog.bind m k) k' s = Prog.bind m (fun a => Prog.bind (k a) k') s.
Proof.
  unfold Prog.bind. destruct (m s) as [[a | e] s']; reflexivity.
Qed.

End ProgLaws.

Lemma bind_set_value {B : Type} (tag : string) (x : GUI.item)
    (k : unit -> prog GUI.t B) (g : GUI.t) :
  Prog.bind (GUI.set_value tag x) k g
  = k tt (GUI.set_dpg (GUI.assign tag x (GUI.dpg g)) g).
Proof. reflexivity. Qed.

(** Runs the leading statements of a method. *)
Ltac prog_step :=
  repeat first
    [ rewrite bind_bind | rewrite bind_get | rewrite bind_modify
    | rewrite bind_ret
    | rewrite bind_lift_ok | rewrite bind_lift_raise | rewrite bind_raise
    | rewrite bind_set_value ];
  cbv beta.

(** ** The step scheduler *)

Section SchedulerFacts.
Import GUI SchedulerSpec.
Local Open Scope Q_scope.

Lemma truediv_nonzero (a b : Q) :
  ~ b == 0 -> PyQ.truediv a b = Ok (a / b).
Proof.
  intros Hb. unfold PyQ.truediv.
  destruct (Qeq_bool b 0) eqn:E; [ | reflexivity ].
  apply Qeq_bool_iff in E. contradiction.
Qed.

Lemma truediv_zero (a b : Q) :
  b == 0 -> PyQ.truediv a b = Raise ZeroDivisionError.
Proof.
  intros Hb. unfold PyQ.truediv.
  apply Qeq_bool_iff in Hb. now rewrite Hb.
Qed.


(** The two comparisons of [train_step] are the 20% test. *)
Lemma hysteresis_deviates (next cur : Z) :
  (0 <= cur)%Z ->
  PyQ.ltb (inject_Z cur * 1.2) (inject_Z next)
  || PyQ.ltb (inject_Z next) (inject_Z cur * 0.8)
  = deviates next cur.
Proof.
  intros Hcur.
  unfold PyQ.ltb, Qle_bool, deviates, Qmult, inject_Z. cbn [Qnum Qden].
  rewrite !Pos.mul_1_l.
  destruct (Z.leb_spec (next * 10) (cur * 12 * 1));
    destruct (Z.leb_spec (cur * 8 * 1) (next * 10));
    destruct (Z.ltb_spec cur (5 * Z.abs (next - cur)));
    cbn; try reflexivity; lia.
Qed.

Lemma inject_Z_nonzero (n : Z) : n <> 0%Z -> ~ inject_Z n == 0.
Proof. unfold Qeq. cbn. lia. Qed.

Lemma full_t_nonzero (t : Q) (n : Z) :
  ~ t == 0 -> n <> 0%Z -> ~ t / inject_Z n * 16 == 0.
Proof.
  intros Ht Hn E. apply Ht.
  assert (Hi := inject_Z_nonzero Hn).
  setoid_replace t with (t / inject_Z n * 16 * (inject_Z n / 16))
    by (field; exact Hi).
  rewrite E. ring.
Qed.

(** With a non-zero time and a positive step count the scheduler runs to
    its end and leaves the step count the 20% rule gives, the quotient being
    truncated. *)
Lemma train_step_runs (trainer : Z -> Run) (g : GUI.t) :
  let t := elapsed_time (trainer (train_steps g)) in
  let n := train_steps g in
  ~ t == 0 -> (0 < n)%Z ->
  exists g',
    train_step trainer g = (Ok tt, g')
    /\ train_steps g' = unit_size_after PyQ.int t n
    /\ step g' = (step g + n)%Z
    /\ need_update g' = true.
Proof.
  intros t n Ht Hn.
  assert (Hn0 : n <> 0%Z) by lia.
  unfold train_step. prog_step. cbv zeta. fold t.
  rewrite (truediv_nonzero 1000 Ht). prog_step.
  cbn [train_steps set_dpg set_need_update set_step]. fold n.
  rewrite (truediv_nonzero t (inject_Z_nonzero Hn0)). prog_step.
  rewrite (truediv_nonzero (16 * 500) (full_t_nonzero Ht Hn0)). prog_step.
  rewrite hysteresis_deviates by lia.
  unfold unit_size_after. fold (next_units PyQ.int t n).
  destruct (deviates (next_units PyQ.int t n) n).
  - eexists. split; [ reflexivity | ]. cbn. auto.
  - eexists. split; [ reflexivity | ]. cbn. auto.
Qed.

(** A zero time or a zero step count makes a division fail; the step count
    is then the one before the call. *)
Lemma train_step_raises (trainer : Z -> Run) (g : GUI.t) :
  let t := elapsed_time (trainer (train_steps g)) in
  let n := train_steps g in
  t == 0 \/ n = 0%Z ->
  exists g',
    train_step trainer g = (Raise ZeroDivisionError, g')
    /\ train_steps g' = n.
Proof.
  intros t n Hz.
  unfold train_step. prog_step. cbv zeta. fold t.
  destruct (Qeq_dec t 0) as [Ht | Ht].
  - rewrite (truediv_zero 1000 Ht). prog_step.
    eexists. split; [ reflexivity | ]. reflexivity.
  - destruct Hz as [Hz | Hz]; [ contradiction | ].
    rewrite (truediv_nonzero 1000 Ht). prog_step.
    cbn [train_steps set_dpg set_need_update set_step]. fold n.
    rewrite truediv_zero by (rewrite Hz; reflexivity). prog_step.
    eexists. split; [ reflexivity | ]. reflexivity.
Qed.




End SchedulerFacts.

Section SchedulerClaims.
Import GUI SchedulerSpec Sample.
Local Open Scope Q_scope.




Lemma next_units_range (rnd : Q -> Z) (t : Q) (n : Z) :
  (4 <= next_units rnd t n <= 16)%Z.
Proof. unfold next_units. lia. Qed.

(** X5: the step count stays within 4..16: whatever time is measured, and whether
    or not the call raises, a count in that range is followed by one. *)
Theorem unit_size_range (trainer : Z -> Run) (g : GUI.t) :
  (4 <= train_steps g <= 16)%Z ->
  (4 <= train_steps (snd (train_step trainer g)) <= 16)%Z.
Proof.
  intros Hn.
  destruct (Qeq_dec (elapsed_time (trainer (train_steps g))) 0) as [E | E].
  - destruct (@train_step_raises trainer g) as (g' & Eg & Hs); [ now left | ].
    rewrite Eg. cbn [snd]. rewrite Hs. exact Hn.
  - destruct (@train_step_runs trainer g) as (g' & Eg & Hs & _);
      [ exact E | lia | ].
    rewrite Eg. cbn [snd]. rewrite Hs. unfold unit_size_after.
    destruct (deviates _ _); [ apply next_units_range | exact Hn ].
Qed.

Lemma unit_size_range_witness :
  (4 <= train_steps (snd (train_step (constant_trainer 1053) viewer_512)) <= 16)%Z.
Proof.
  apply (@unit_size_range (constant_trainer 1053) viewer_512).
  cbn. lia.
Defined.

(** [int] depends on the value of the rational only. *)
Lemma int_Qeq (p q : Q) : p == q -> PyQ.int p = PyQ.int q.
Proof.
  destruct p as [a b], q as [c d]. unfold Qeq, PyQ.int. cbn [Qnum Qden].
  intros E.
  rewrite <- (Z.quot_mul_cancel_r a (Z.pos b) (Z.pos d)) by lia.
  rewrite <- (Z.quot_mul_cancel_r c (Z.pos d) (Z.pos b)) by lia.
  rewrite E. f_equal. lia.
Qed.

(** At [k] ms per unit the candidate does not depend on the step count. *)
Lemma next_units_per_unit (k : Q) (n : Z) :
  0 < k -> (0 < n)%Z ->
  next_units PyQ.int (k * inject_Z n) n
  = Z.min 16 (Z.max 4 (PyQ.int (500 / k))).
Proof.
  intros Hk Hn. unfold next_units. do 2 f_equal. apply int_Qeq.
  assert (~ inject_Z n == 0) by (apply inject_Z_nonzero; lia).
  field. split; [ intros E; rewrite E in Hk; discriminate | assumption ].
Qed.

Lemma per_unit_time_nonzero (k : Q) (n : Z) :
  0 < k -> (0 < n)%Z -> ~ k * inject_Z n == 0.
Proof.
  intros Hk Hn E.
  assert (Hp : 0 < k * inject_Z n).
  { apply Qmult_lt_0_compat; [ exact Hk | ].
    unfold Qlt. cbn. lia. }
  rewrite E in Hp. discriminate.
Qed.

(** X6: with a trainer that takes exactly [k] ms per unit the step count settles
    at once: the second invocation leaves what the first one left. *)
Theorem unit_size_settles (k : Q) (g : GUI.t) :
  0 < k ->
  (0 < train_steps g)%Z ->
  train_steps
    (snd (train_step (per_unit_trainer k)
            (snd (train_step (per_unit_trainer k) g))))
  = train_steps (snd (train_step (per_unit_trainer k) g)).
Proof.
  intros Hk Hn.
  destruct (@train_step_runs (per_unit_trainer k) g) as (g1 & E1 & H1 & _);
    [ apply per_unit_time_nonzero; assumption | exact Hn | ].
  rewrite E1. cbn [snd].
  cbn [elapsed_time per_unit_trainer] in H1.
  unfold unit_size_after in H1.
  rewrite next_units_per_unit in H1 by assumption.
  set (c := Z.min 16 (Z.max 4 (PyQ.int (500 / k)))) in *.
  assert (Hc : (4 <= c)%Z) by (unfold c; lia).
  assert (Hn1 : (0 < train_steps g1)%Z).
  { rewrite H1. destruct (deviates c (train_steps g)); lia. }
  destruct (@train_step_runs (per_unit_trainer k) g1) as (g2 & E2 & H2 & _);
    [ apply per_unit_time_nonzero; assumption | exact Hn1 | ].
  rewrite E2. cbn [snd].
  cbn [elapsed_time per_unit_trainer] in H2.
  unfold unit_size_after in H2.
  rewrite next_units_per_unit in H2 by assumption. fold c in H2.
  rewrite H2.
  destruct (deviates c (train_steps g)) eqn:Ed.
  - rewrite H1. unfold deviates.
    replace (c - c)%Z with 0%Z by lia. cbn [Z.abs].
    destruct (Z.ltb_spec c (5 * 0)); [ lia | reflexivity ].
  - rewrite H1, Ed. reflexivity.
Qed.

Lemma unit_size_settles_witness :
  train_steps
    (snd (train_step (per_unit_trainer 100)
            (snd (train_step (per_unit_trainer 100) viewer_512))))
  = train_steps (snd (train_step (per_unit_trainer 100) viewer_512)).
Proof.
  apply (@unit_size_settles 100 viewer_512); reflexivity.
Defined.

End SchedulerClaims.

(** ** The step scheduler in binary64 *)

Section SchedulerBinary64.
Import PrimFloat GUI SchedulerSpec Sample.

Lemma int_finite (x : PrimFloat.float) :
  SchedulerSpec64.is_finite x = true ->
  Binary64.int x = Ok (SchedulerSpec64.trunc x).
Proof.
  unfold SchedulerSpec64.is_finite, SchedulerSpec64.trunc, Binary64.int.
  destruct (FloatOps.Prim2SF x); intros H; try discriminate; reflexivity.
Qed.

Lemma truediv64_nonzero (a b : PrimFloat.float) :
  PrimFloat.eqb b 0%float = false ->
  Binary64.truediv a b = Ok (PrimFloat.div a b).
Proof. intros H. unfold Binary64.truediv. rewrite H. reflexivity. Qed.

(** On step counts within their bounds the two comparisons of [train_step],
    made in binary64, are the 20% test. *)
Lemma hysteresis64_deviates (next cur : Z) :
  (4 <= cur <= 16)%Z -> (4 <= next <= 16)%Z ->
  PrimFloat.ltb
    (PrimFloat.mul (Binary64.of_int cur) 0x1.3333333333333p+0%float)
    (Binary64.of_int next)
  || PrimFloat.ltb (Binary64.of_int next)
       (PrimFloat.mul (Binary64.of_int cur) 0x1.999999999999ap-1%float)
  = deviates next cur.
Proof.
  intros Hc Hn.
  assert (Ec : (cur = 4 \/ cur = 5 \/ cur = 6 \/ cur = 7 \/ cur = 8 \/ cur = 9
               \/ cur = 10 \/ cur = 11 \/ cur = 12 \/ cur = 13 \/ cur = 14
               \/ cur = 15 \/ cur = 16)%Z) by lia.
  assert (En : (next = 4 \/ next = 5 \/ next = 6 \/ next = 7 \/ next = 8
               \/ next = 9 \/ next = 10 \/ next = 11 \/ next = 12 \/ next = 13
               \/ next = 14 \/ next = 15 \/ next = 16)%Z) by lia.
  clear Hc Hn.
  repeat (destruct Ec as [-> | Ec]); try subst cur;
    repeat (destruct En as [-> | En]); try subst next;
    vm_compute; reflexivity.
Qed.

(** With a measurement that can be used and a step count within its
    bounds, the binary64 scheduler runs to its end. *)
Lemma train_step64_runs (trainer : Z -> Binary64.Run) (g : GUI.t) :
  (4 <= train_steps g <= 16)%Z ->
  SchedulerSpec64.measurable
    (Binary64.elapsed_time (trainer (train_steps g))) (train_steps g) = true ->
  exists g',
    Binary64.train_step trainer g = (Ok tt, g')
    /\ train_steps g'
       = SchedulerSpec64.unit_size_after SchedulerSpec64.trunc
           (Binary64.elapsed_time (trainer (train_steps g))) (train_steps g)
    /\ step g' = (step g + train_steps g)%Z
    /\ need_update g' = true.
Proof.
  intros Hn Hm.
  unfold SchedulerSpec64.measurable in Hm.
  apply andb_prop in Hm. destruct Hm as [Hm H5].
  apply andb_prop in Hm. destruct Hm as [Hm H4].
  apply andb_prop in Hm. destruct Hm as [Hm H3].
  apply andb_prop in Hm. destruct Hm as [H1 H2].
  apply negb_true_iff in H1, H3, H4.
  unfold Binary64.train_step. prog_step. cbv zeta.
  set (t := Binary64.elapsed_time (trainer (train_steps g))) in *.
  rewrite (truediv64_nonzero _ H1). prog_step.
  rewrite (@int_finite _ H2). prog_step.
  cbn [train_steps set_dpg set_need_update set_step].
  set (n := train_steps g) in *.
  rewrite (truediv64_nonzero _ H3). prog_step.
  rewrite (truediv64_nonzero _ H4). prog_step.
  fold (SchedulerSpec64.quotient t n).
  rewrite (@int_finite _ H5). prog_step.
  rewrite hysteresis64_deviates by lia.
  unfold SchedulerSpec64.unit_size_after.
  fold (SchedulerSpec64.next_units SchedulerSpec64.trunc t n).
  destruct (deviates (SchedulerSpec64.next_units SchedulerSpec64.trunc t n) n).
  - eexists. split; [ reflexivity | ]. cbn. auto.
  - eexists. split; [ reflexivity | ]. cbn. auto.
Qed.

(** C1, as stated, fails: with [unit_size = 16] and a measured
    [t = 1053.0] ms the quotient [16 * 500 / 1053] is 7.59..., which [int]
    truncates to 7 and rounding would make 8; both are more than 20% away
    from 16, so the code leaves 7 where the claim says 8. *)
Lemma train_step64_truncates_1053 :
  train_steps (snd (Binary64.train_step (constant_trainer64 1053) viewer_512))
  = 7%Z
  /\ SchedulerSpec64.unit_size_after SchedulerSpec64.round 1053
       (train_steps viewer_512) = 8%Z.
Proof.
  split; [ | vm_compute; reflexivity ].
  destruct (@train_step64_runs (constant_trainer64 1053) viewer_512)
    as (g' & E & Hn & _); [ cbn; lia | vm_compute; reflexivity | ].
  rewrite E. cbn [snd]. rewrite Hn. vm_compute. reflexivity.
Qed.

(** The quotient is the binary64 one: at [unit_size = 12] and [t = 400.0]
    it is 14.999999999999998, the candidate is 14 and not 15, and the step
    count stays 12. *)
Lemma train_step64_400_12 :
  SchedulerSpec64.quotient 400 12 = 0x1.dffffffffffffp+3%float
  /\ train_steps
       (snd (Binary64.train_step (constant_trainer64 400)
               (set_train_steps 12 viewer_512))) = 12%Z.
Proof.
  split; [ vm_compute; reflexivity | ].
  destruct (@train_step64_runs (constant_trainer64 400)
              (set_train_steps 12 viewer_512))
    as (g' & E & Hn & _); [ cbn; lia | vm_compute; reflexivity | ].
  rewrite E. cbn [snd]. rewrite Hn. vm_compute. reflexivity.
Qed.

(** C1 (amended): after an invocation that processed [prev_units =
    unit_size] units, with [unit_size] within 4..16 and a measured time for
    which the divisions succeed, [train_step] ends without an error and the
    new [unit_size] is [next_units = min(16, max(4, int(16 * 500 /
    full_t)))] with [full_t = t / prev_units * 16] when that is more than 20%
    away from [unit_size], and [unit_size] otherwise; every operation is the
    binary64 one and the quotient is truncated, not rounded.  With
    [unit_size = 16] and [t = 1000] it becomes 8. *)
Theorem train_step_unit_size (trainer : Z -> Binary64.Run) (g : GUI.t) :
  (4 <= train_steps g <= 16)%Z ->
  SchedulerSpec64.measurable
    (Binary64.elapsed_time (trainer (train_steps g))) (train_steps g) = true ->
  exists g',
    Binary64.train_step trainer g = (Ok tt, g')
    /\ train_steps g'
       = SchedulerSpec64.unit_size_after SchedulerSpec64.trunc
           (Binary64.elapsed_time (trainer (train_steps g))) (train_steps g)
    /\ (Binary64.elapsed_time (trainer (train_steps g)) = 1000%float ->
        train_steps g = 16%Z -> train_steps g' = 8%Z).
Proof.
  intros Hn Hm.
  destruct (train_step64_runs trainer g Hn Hm) as (g' & E & Hs & _).
  exists g'. split; [ exact E | ]. split; [ exact Hs | ].
  intros Et En. rewrite Hs, Et, En. vm_compute. reflexivity.
Qed.

Lemma train_step_unit_size_witness :
  exists g',
    Binary64.train_step (constant_trainer64 1000) viewer_512 = (Ok tt, g')
    /\ train_steps g' = 8%Z.
Proof.
  assert (Hn : (4 <= train_steps viewer_512 <= 16)%Z) by (cbn; lia).
  assert (Hm : SchedulerSpec64.measurable
                 (Binary64.elapsed_time
                    (constant_trainer64 1000 (train_steps viewer_512)))
                 (train_steps viewer_512) = true) by (vm_compute; reflexivity).
  destruct (@train_step_unit_size (constant_trainer64 1000) viewer_512 Hn Hm)
    as (g' & E & _ & H8).
  exists g'. split; [ exact E | apply H8; reflexivity ].
Defined.

End SchedulerBinary64.

(** ** The scheduler over a run *)

Section SchedulerRuns.
Import GUI SchedulerSpec Sample.
Local Open Scope Q_scope.

(** Whatever the measured time, [train_step] touches the step counter, the
    dirty flag, the step count and the GUI items only. *)
Lemma train_step_shape (trainer : Z -> Run) (g : GUI.t) :
  exists r ts d,
    train_step trainer g
    = (r, GUI.mk (W g) (H g) (cam g) (bg_color g) (render_buffer g) true
            (light_dir g) (ambient_ratio g) (mode g) (debug g) (mesh g)
            (training g) (step g + train_steps g) ts d (disk g))
    /\ (ts = train_steps g \/ (4 <= ts <= 16)%Z).
Proof.
  unfold train_step. prog_step. cbv zeta.
  destruct (PyQ.truediv 1000 (elapsed_time (trainer (train_steps g))))
    as [fps | e]; prog_step.
  2: { do 3 eexists. split; [ reflexivity | left; reflexivity ]. }
  cbn [train_steps set_dpg set_need_update set_step].
  destruct (PyQ.truediv (elapsed_time (trainer (train_steps g)))
              (inject_Z (train_steps g))) as [per | e]; prog_step.
  2: { do 3 eexists. split; [ reflexivity | left; reflexivity ]. }
  destruct (PyQ.truediv (16 * 500) (per * 16)) as [ratio | e]; prog_step.
  2: { do 3 eexists. split; [ reflexivity | left; reflexivity ]. }
  destruct (_ || _).
  - do 3 eexists. split; [ reflexivity | right; cbn; lia ].
  - do 3 eexists. split; [ reflexivity | left; reflexivity ].
Qed.

Lemma int_le (q : Q) : 0 <= q -> inject_Z (PyQ.int q) <= q.
Proof.
  destruct q as [a d]. unfold Qle, PyQ.int. cbn [Qnum Qden inject_Z]. intros Ha.
  assert (Ha' : (0 <= a)%Z) by lia.
  rewrite Z.quot_div_nonneg by lia.
  assert (H := Z.mul_div_le a (Z.pos d) ltac:(lia)). lia.
Qed.

Lemma int_lt_succ (q : Q) : 0 <= q -> q < inject_Z (PyQ.int q) + 1.
Proof.
  destruct q as [a d]. unfold Qlt, Qle, Qplus, PyQ.int.
  cbn [Qnum Qden inject_Z]. intros Ha.
  assert (Ha' : (0 <= a)%Z) by lia.
  rewrite Z.quot_div_nonneg by lia.
  assert (H := Z.mul_succ_div_gt a (Z.pos d) ltac:(lia)). lia.
Qed.


(** The quotient of [train_step] is 500 ms over the time per step. *)
Lemma ratio_eq (t : Q) (n : Z) :
  ~ t == 0 -> n <> 0%Z ->
  16 * 500 / (t / inject_Z n * 16) == 500 * inject_Z n / t.
Proof.
  intros Ht Hn. assert (Hi := inject_Z_nonzero Hn).
  field. split; assumption.
Qed.

Lemma pos_nonzero (t : Q) : 0 < t -> ~ t == 0.
Proof. intros Ht E. rewrite E in Ht. discriminate. Qed.

Lemma inject_Z_pos (n : Z) : (0 < n)%Z -> 0 < inject_Z n.
Proof. unfold Qlt. cbn. lia. Qed.


(** Above its lower bound the candidate fits the 500 ms of a frame. *)
Lemma next_units_budget (t : Q) (n : Z) :
  0 < t -> (0 < n)%Z ->
  next_units PyQ.int t n = 4%Z
  \/ inject_Z (next_units PyQ.int t n) * (t / inject_Z n) <= 500.
Proof.
  intros Ht Hn. unfold next_units.
  set (q := 16 * 500 / (t / inject_Z n * 16)).
  assert (Hi := inject_Z_pos Hn).
  assert (Hper : 0 < t / inject_Z n).
  { apply Qlt_shift_div_l; [ exact Hi | ]. rewrite Qmult_0_l. exact Ht. }
  destruct (Z_le_gt_dec (PyQ.int q) 4) as [Hs | Hb]; [ left; lia | right ].
  assert (Hq : 0 <= q).
  { unfold q. rewrite ratio_eq by (try apply pos_nonzero; try assumption; lia).
    apply Qle_shift_div_l; [ exact Ht | ].
    rewrite Qmult_0_l. apply Qmult_le_0_compat; [ discriminate | apply Qlt_le_weak, Hi ]. }
  assert (Hnext : inject_Z (Z.min 16 (Z.max 4 (PyQ.int q))) <= q).
  { eapply Qle_trans; [ | apply int_le; exact Hq ].
    rewrite <- Zle_Qle. lia. }
  eapply Qle_trans; [ apply Qmult_le_compat_r; [ exact Hnext | apply Qlt_le_weak, Hper ] | ].
  unfold q. apply Qle_lteq. right.
  field. split; [ apply pos_nonzero; exact Hi | apply pos_nonzero, Ht ].
Qed.

(** X17: [train_step] accounts for the steps it ran and asks for a render in
    every outcome, a raised [ZeroDivisionError] included; it never touches
    the camera, the mesh, the colour buffer, the mode, the light, the
    training switch or the files. *)
Theorem train_step_frame (trainer : Z -> Run) (g : GUI.t) :
  step (snd (train_step trainer g)) = (step g + train_steps g)%Z
  /\ need_update (snd (train_step trainer g)) = true
  /\ render_buffer (snd (train_step trainer g)) = render_buffer g
  /\ StateSpec.same_scene g (snd (train_step trainer g)).
Proof.
  destruct (train_step_shape trainer g) as (r & ts & d & E & _).
  rewrite E. cbn [snd]. unfold StateSpec.same_scene. cbn. repeat split.
Qed.


(** X19: at the time per step that was measured, the step count [train_step]
    leaves keeps the next run within 625 ms (the 500 ms of a frame and the
    20% of the hysteresis), unless the count is at most 5. *)
Theorem train_step_budget (trainer : Z -> Run) (g : GUI.t) :
  (0 < train_steps g)%Z ->
  0 < elapsed_time (trainer (train_steps g)) ->
  (train_steps (snd (train_step trainer g)) <= 5)%Z
  \/ inject_Z (train_steps (snd (train_step trainer g)))
     * (elapsed_time (trainer (train_steps g)) / inject_Z (train_steps g))
     <= 625.
Proof.
  intros Hn Ht.
  destruct (@train_step_runs trainer g) as (g1 & E1 & H1 & _);
    [ apply pos_nonzero, Ht | exact Hn | ].
  rewrite E1. cbn [snd]. rewrite H1. clear E1 H1 g1.
  set (t := elapsed_time (trainer (train_steps g))) in *.
  set (n := train_steps g) in *.
  assert (Hi := inject_Z_pos Hn).
  assert (Hper : 0 < t / inject_Z n).
  { apply Qlt_shift_div_l; [ exact Hi | ]. rewrite Qmult_0_l. exact Ht. }
  unfold unit_size_after, deviates.
  destruct (next_units_budget Ht Hn) as [E4 | Hb].
  - left. fold n in E4. rewrite E4.
    destruct (Z.ltb_spec n (5 * Z.abs (4 - n))); lia.
  - fold n in Hb. set (c := next_units PyQ.int t n) in *.
    destruct (Z.ltb_spec n (5 * Z.abs (c - n))) as [Hd | Hk].
    + right. eapply Qle_trans; [ exact Hb | discriminate ].
    + right.
      assert (Hc : inject_Z n <= (5 # 4) * inject_Z c).
      { unfold Qle, Qmult, inject_Z. cbn [Qnum Qden]. lia. }
      eapply Qle_trans;
        [ apply Qmult_le_compat_r; [ exact Hc | apply Qlt_le_weak, Hper ] | ].
      setoid_replace (625 : Q) with ((5 # 4) * 500) by reflexivity.
      rewrite <- Qmult_assoc.
      apply Qmult_le_l; [ reflexivity | exact Hb ].
Qed.


Lemma train_step_budget_witness :
  (train_steps (snd (train_step (constant_trainer 1053) viewer_512)) <= 5)%Z
  \/ inject_Z (train_steps (snd (train_step (constant_trainer 1053) viewer_512)))
     * (1053 / inject_Z 16) <= 625.
Proof.
  apply (@train_step_budget (constant_trainer 1053) viewer_512); reflexivity.
Defined.

End SchedulerRuns.

(** ** The camera mutators *)

Section CameraMutatorFacts.
Import OrbitCamera CameraSpec Sample.
Local Open Scope R_scope.

(** C10: each mutator changes its own field only: [scale] the radius, [pan]
    the look-at point, [orbit] the rotation; the viewport, the field of view,
    the clipping planes, the up axis and the other two of radius, center and
    rotation are as before.  For [scale] and [pan] this holds whatever the
    scalars are. *)
Theorem mutators_frame :
  (forall (F : Type) (HF : PyFloat F) (delta : F) (c : OrbitCamera.t F),
      same_but_radius c (scale delta c))
  /\ (forall (F : Type) (HF : PyFloat F) (dx dy dz : F) (c : OrbitCamera.t F),
      same_but_center c (pan dx dy dz c))
  /\ (forall (dx dy : R) (c : OrbitCamera.t R),
      same_but_rot c (orbit dx dy c)).
Proof.
  repeat split.
Qed.

(** C3, as stated, fails: zooming by [delta = +inf] is not rejected.
    [1.1 ** (-inf)] is 0, so the radius 3 becomes 0. *)
Lemma scale_infinite_not_rejected :
  XFloat.is_finite XPInf = false
  /\ radius (inject camera_512) = XFin 3
  /\ radius (scale XPInf (inject camera_512)) = XFin 0.
Proof.
  repeat split. cbn. unfold XFloat.pow.
  destruct (Rlt_dec 1 (11 / 10)) as [_ | Hn]; [ | exfalso; lra ].
  cbn. f_equal. ring.
Qed.

Lemma xmul_nan_r (a : xfloat) : XFloat.mul a XNaN = XNaN.
Proof. destruct a; reflexivity. Qed.

Lemma xadd_nan_r (a : xfloat) : XFloat.add a XNaN = XNaN.
Proof. destruct a; reflexivity. Qed.

(** C3 (amended): [scale] and [pan] do not test their inputs; a non-finite
    input goes through the same arithmetic as a finite one.  [scale(nan)]
    makes the radius [nan], [scale(inf)] multiplies it by 0 and [scale(-inf)]
    by [inf]; [pan] with [dx = nan] makes the three coordinates of the look-at
    point [nan].  What the operation does not own is retained. *)
Theorem non_finite_input_propagates (c : OrbitCamera.t xfloat) :
  radius (scale XNaN c) = XNaN
  /\ radius (scale XPInf c) = XFloat.mul (radius c) (XFin 0)
  /\ radius (scale XNInf c) = XFloat.mul (radius c) XPInf
  /\ (forall dy dz, center (pan XNaN dy dz c) = mkVec3 XNaN XNaN XNaN)
  /\ (forall delta, same_but_radius c (scale delta c))
  /\ (forall dx dy dz, same_but_center c (pan dx dy dz c)).
Proof.
  split; [ | split; [ | split; [ | split; [ | split ] ] ] ].
  - cbn. unfold XFloat.pow.
    destruct (Req_dec_T (11 / 10) 1) as [E | _]; [ exfalso; lra | ].
    apply xmul_nan_r.
  - cbn. unfold XFloat.pow.
    destruct (Rlt_dec 1 (11 / 10)) as [_ | Hn]; [ reflexivity | exfalso; lra ].
  - cbn. unfold XFloat.pow.
    destruct (Rlt_dec 1 (11 / 10)) as [_ | Hn]; [ reflexivity | exfalso; lra ].
  - intros dy dz. unfold pan, vec3_add, mat3_vec, mat3_smul, dot3, as_matrix.
    cbn. rewrite !xmul_nan_r. cbn. rewrite !xadd_nan_r. reflexivity.
  - intros delta. repeat split.
  - intros dx dy dz. repeat split.
Qed.

(** On finite inputs the extended scalars compute what the reals compute. *)
Theorem finite_inputs_agree (c : OrbitCamera.t R) (delta dx dy dz : R) :
  scale (XFin delta) (inject c) = inject (scale delta c)
  /\ pan (XFin dx) (XFin dy) (XFin dz) (inject c) = inject (pan dx dy dz c).
Proof.
  split; reflexivity.
Qed.

End CameraMutatorFacts.

(** ** Rounding to binary64 *)

Section RoundingFacts.
Import Rounded64 CameraSpec Sample.
Local Open Scope R_scope.








(** A function on an interval of integers has a least value. *)
Lemma argmin_row (f : Z -> R) (a : Z) (n : nat) :
  exists k, (a <= k <= a + Z.of_nat n)%Z
            /\ forall j, (a <= j <= a + Z.of_nat n)%Z -> f k <= f j.
Proof.
  induction n as [ | n (k & Hk & Hmin)].
  - exists a. split; [ lia | ]. intros j Hj. replace j with a by lia. lra.
  - destruct (Rle_dec (f k) (f (a + Z.of_nat (S n))%Z)) as [Hle | Hgt].
    + exists k. split; [ lia | ]. intros j Hj.
      destruct (Z.eq_dec j (a + Z.of_nat (S n))) as [-> | Hne];
        [ exact Hle | apply Hmin; lia ].
    + exists (a + Z.of_nat (S n))%Z. split; [ lia | ]. intros j Hj.
      destruct (Z.eq_dec j (a + Z.of_nat (S n))) as [-> | Hne]; [ lra | ].
      assert (f k <= f j) by (apply Hmin; lia). lra.
Qed.

Lemma argmin_interval (f : Z -> R) (a b : Z) :
  (a <= b)%Z ->
  exists k, (a <= k <= b)%Z /\ forall j, (a <= j <= b)%Z -> f k <= f j.
Proof.
  intros Hab.
  destruct (argmin_row f a (Z.to_nat (b - a))) as (k & Hk & Hmin).
  rewrite Z2Nat.id in Hk, Hmin by lia.
  exists k. split; [ lia | ]. intros j Hj. apply Hmin. lia.
Qed.

Lemma argmin_rect (F : Z -> Z -> R) (a b c d : Z) :
  (a <= b)%Z -> (c <= d)%Z ->
  exists k l, (a <= k <= b)%Z /\ (c <= l <= d)%Z
    /\ forall i j, (a <= i <= b)%Z -> (c <= j <= d)%Z -> F k l <= F i j.
Proof.
  intros Hab Hcd.
  assert (Hrows : forall n : nat,
    exists k l, (a <= k <= a + Z.of_nat n)%Z /\ (c <= l <= d)%Z
      /\ forall i j, (a <= i <= a + Z.of_nat n)%Z -> (c <= j <= d)%Z ->
                     F k l <= F i j).
  { induction n as [ | n (k & l & Hk & Hl & Hmin)].
    - destruct (argmin_interval (F a) Hcd) as (l & Hl & Hmin).
      exists a, l. split; [ lia | ]. split; [ exact Hl | ].
      intros i j Hi Hj. replace i with a by lia. apply Hmin, Hj.
    - destruct (argmin_interval (F (a + Z.of_nat (S n))%Z) Hcd) as (l' & Hl' & Hmin').
      destruct (Rle_dec (F k l) (F (a + Z.of_nat (S n))%Z l')) as [Hle | Hgt].
      + exists k, l. split; [ lia | ]. split; [ exact Hl | ].
        intros i j Hi Hj.
        destruct (Z.eq_dec i (a + Z.of_nat (S n))) as [-> | Hne].
        * assert (F (a + Z.of_nat (S n))%Z l' <= F (a + Z.of_nat (S n))%Z j)
            by (apply Hmin', Hj). lra.
        * apply Hmin; [ lia | exact Hj ].
      + exists (a + Z.of_nat (S n))%Z, l'. split; [ lia | ]. split; [ exact Hl' | ].
        intros i j Hi Hj.
        destruct (Z.eq_dec i (a + Z.of_nat (S n))) as [-> | Hne].
        * apply Hmin', Hj.
        * assert (F k l <= F i j) by (apply Hmin; [ lia | exact Hj ]). lra. }
  destruct (Hrows (Z.to_nat (b - a))) as (k & l & Hk & Hl & Hmin).
  rewrite Z2Nat.id in Hk, Hmin by lia.
  exists k, l. split; [ lia | ]. split; [ exact Hl | ].
  intros i j Hi Hj. apply Hmin; [ lia | exact Hj ].
Qed.

Lemma nearest_exists (x : R) : exists f, nearest x f.
Proof.
  destruct (@argmin_rect (fun e m => Rabs (IZR m * powerRZ 2 e - x))
              (-1074) 971 (- (2 ^ 53 - 1)) (2 ^ 53 - 1)) as (e & m & He & Hm & Hmin);
    [ lia | lia | ].
  exists (IZR m * powerRZ 2 e). split.
  - exists m, e. split; [ lia | ]. split; [ lia | reflexivity ].
  - intros g (m' & e' & Hm' & He' & ->). apply Hmin; lia.
Qed.

Lemma round_nearest (x : R) : nearest x (round x).
Proof. unfold round. apply epsilon_spec, nearest_exists. Qed.

Lemma round_representable (x : R) : representable (round x).
Proof. apply round_nearest. Qed.

















Lemma representable_base : representable literal_1_1.
Proof. apply round_representable. Qed.


























End RoundingFacts.

(** ** Orbiting, pose and view *)

Section CameraGeometry.
Import OrbitCamera CameraSpec SpaceSpec Np Sample.
Local Open Scope R_scope.

Ltac mat3_unfold :=
  cbv [Rot.compose Rot.mat3_mul Rot.transpose Rot.mat3_add mat3_smul
       Rot.cross Rot.identity vec3_scale column0 as_matrix
       m00 m01 m02 m10 m11 m12 m20 m21 m22 vx vy vz fmul PyFloat_R].

(** Proves an equation between arrays entry by entry. *)
Ltac entrywise tac :=
  repeat match goal with
         | |- (_ :: _) = (_ :: _) => apply f_equal2
         | |- @eq R _ _ => tac
         | |- @eq (list _) [] [] => reflexivity
         end.

Lemma norm_scale (k : Vec3 R) (a : R) :
  unit_vector k -> Rot.norm (vec3_scale k a) = Rabs a.
Proof.
  unfold unit_vector, Rot.norm, vec3_scale. intros Hk. cbn [vx vy vz].
  replace (vx k * a * (vx k * a) + vy k * a * (vy k * a) + vz k * a * (vz k * a))
    with (Rsqr a * (vx k * vx k + vy k * vy k + vz k * vz k))
    by (unfold Rsqr; ring).
  rewrite Hk, Rmult_1_r. apply sqrt_Rsqr_abs.
Qed.

(** The rotation vector [k * a], for a unit vector [k], is the rotation about
    [k] by the angle [a], whatever the sign of [a]. *)
Lemma from_rotvec_scale (k : Vec3 R) (deg : R) :
  unit_vector k ->
  Rot.from_rotvec (vec3_scale k (radians deg)) = rotation_about k deg.
Proof.
  intros Hk. unfold Rot.from_rotvec, rotation_about. cbv zeta.
  rewrite (norm_scale (radians deg) Hk).
  generalize (radians deg). intros a.
  destruct (Req_dec_T (Rabs a) 0) as [E | E].
  - assert (a = 0).
    { destruct (Req_dec a 0) as [E0 | E0]; [ exact E0 | ].
      exfalso. exact (Rabs_no_R0 a E0 E). }
    subst a. rewrite sin_0, cos_0. mat3_unfold.
    f_equal; ring.
  - assert (Ha : a <> 0) by (intros E0; apply E; rewrite E0; apply Rabs_R0).
    destruct (Rcase_abs a) as [Hneg | Hpos].
    + rewrite (Rabs_left a Hneg), sin_neg, cos_neg. mat3_unfold.
      f_equal; field; exact Ha.
    + rewrite (Rabs_right a Hpos). mat3_unfold.
      f_equal; field; exact Ha.
Qed.

Lemma from_rotvec_scale_0 (v : Vec3 R) (a : R) :
  a = 0 -> Rot.from_rotvec (vec3_scale v a) = Rot.identity.
Proof.
  intros ->. unfold Rot.from_rotvec. cbv zeta.
  assert (E : Rot.norm (vec3_scale v 0) = 0).
  { unfold Rot.norm, vec3_scale. cbn [vx vy vz].
    replace (vx v * 0 * (vx v * 0) + vy v * 0 * (vy v * 0) + vz v * 0 * (vz v * 0))
      with 0 by ring.
    apply sqrt_0. }
  rewrite E. destruct (Req_dec_T 0 0) as [_ | N]; [ reflexivity | contradiction ].
Qed.

Lemma compose_identity_l (M : Rotation R) : Rot.compose Rot.identity M = M.
Proof. destruct M as [a b c d e f g h i]. mat3_unfold. f_equal; ring. Qed.

Lemma orbit_0_0 (c : OrbitCamera.t R) : orbit 0 0 c = c.
Proof.
  unfold orbit. cbv zeta.
  rewrite !from_rotvec_scale_0 by (unfold radians; field).
  rewrite !compose_identity_l. destruct c; reflexivity.
Qed.

Lemma orthonormal_column0 (M : Mat3 R) :
  orthonormal M -> unit_vector (column0 M).
Proof.
  unfold orthonormal, unit_vector. destruct M as [a b c d e f g h i].
  mat3_unfold. intros E. injection E as E00 _ _ _ _ _ _ _ _. exact E00.
Qed.

Lemma identity_orthonormal : orthonormal Rot.identity.
Proof. unfold orthonormal. mat3_unfold. f_equal; ring. Qed.

Lemma orbit_rot (dx dy : R) (c : OrbitCamera.t R) :
  up c = mkVec3 0 1 0 ->
  orthonormal (rot c) ->
  rot (orbit dx dy c)
  = Rot.compose
      (Rot.compose (rotation_about (mkVec3 0 1 0) (- (5 / 100) * dx))
                   (rotation_about (column0 (rot c)) (- (5 / 100) * dy)))
      (rot c).
Proof.
  intros Hup Hrot.
  unfold orbit. cbv zeta. cbn [rot set_rot]. rewrite Hup.
  rewrite !from_rotvec_scale.
  - reflexivity.
  - apply orthonormal_column0. exact Hrot.
  - unfold unit_vector. cbn. ring.
Qed.

(** C6: [orbit(dx, dy)] replaces the rotation by
    [R(up, -0.05 dx) * R(side, -0.05 dy) * R_old], angles in degrees, where
    [up] is the axis (0, 1, 0) and [side] is the first column of the rotation
    matrix before the update; [orbit(0, 0)] changes nothing. *)
Theorem orbit_composition (dx dy : R) (c : OrbitCamera.t R) :
  up c = mkVec3 0 1 0 ->
  orthonormal (rot c) ->
  rot (orbit dx dy c)
  = Rot.compose
      (Rot.compose (rotation_about (mkVec3 0 1 0) (- (5 / 100) * dx))
                   (rotation_about (column0 (rot c)) (- (5 / 100) * dy)))
      (rot c)
  /\ orbit 0 0 c = c.
Proof.
  intros Hup Hrot. split; [ apply orbit_rot; assumption | apply orbit_0_0 ].
Qed.

Lemma orbit_composition_witness :
  rot (orbit 100 0 camera_512)
  = Rot.compose
      (Rot.compose (rotation_about (mkVec3 0 1 0) (- (5 / 100) * 100))
                   (rotation_about (column0 (rot camera_512)) (- (5 / 100) * 0)))
      (rot camera_512)
  /\ orbit 0 0 camera_512 = camera_512.
Proof.
  exact (@orbit_composition 100 0 camera_512 eq_refl identity_orthonormal).
Defined.

Lemma pose_entries (c : OrbitCamera.t R) :
  pose c =
  [[m00 (rot c); m01 (rot c); m02 (rot c); m02 (rot c) * radius c - vx (center c)];
   [m10 (rot c); m11 (rot c); m12 (rot c); m12 (rot c) * radius c - vy (center c)];
   [m20 (rot c); m21 (rot c); m22 (rot c); m22 (rot c) * radius c - vz (center c)];
   [0; 0; 0; 1]].
Proof.
  unfold pose, as_matrix. cbn. entrywise ltac:(ring).
Qed.

Lemma det_pose (c : OrbitCamera.t R) : det 4 (pose c) = det3 (rot c).
Proof.
  rewrite pose_entries. unfold det3. cbn. ring.
Qed.

(** The determinant of an orthonormal matrix is 1 or -1: its square is the
    determinant of the matrix of the products of its columns. *)
Lemma orthonormal_det (M : Mat3 R) : orthonormal M -> det3 M * det3 M = 1.
Proof.
  unfold orthonormal. destruct M as [a b c d e f g h i]. mat3_unfold. intros E.
  injection E as E00 E01 E02 E10 E11 E12 E20 E21 E22.
  unfold det3. cbn [m00 m01 m02 m10 m11 m12 m20 m21 m22].
  transitivity
    ((a * a + d * d + g * g)
       * ((b * b + e * e + h * h) * (c * c + f * f + i * i)
          - (b * c + e * f + h * i) * (c * b + f * e + i * h))
     - (a * b + d * e + g * h)
       * ((b * a + e * d + h * g) * (c * c + f * f + i * i)
          - (b * c + e * f + h * i) * (c * a + f * d + i * g))
     + (a * c + d * f + g * i)
       * ((b * a + e * d + h * g) * (c * b + f * e + i * h)
          - (b * b + e * e + h * h) * (c * a + f * d + i * g))).
  - ring.
  - rewrite E00, E01, E02, E10, E11, E12, E20, E21, E22. ring.
Qed.

(** Whenever the rotation matrix is regular, [view] returns, and what it
    returns is the inverse of [pose] on both sides. *)
Lemma view_pose_regular (c : OrbitCamera.t R) :
  det3 (rot c) <> 0 ->
  exists V,
    view c = Ok V /\ matmul V (pose c) = eye 4 /\ matmul (pose c) V = eye 4.
Proof.
  intros Hd. unfold view, linalg_inv.
  assert (Hlen : List.length (pose c) = 4%nat)
    by (rewrite pose_entries; reflexivity).
  rewrite Hlen. cbv zeta. rewrite det_pose.
  destruct (Req_dec_T (det3 (rot c)) 0) as [E | _]; [ contradiction | ].
  eexists. split; [ reflexivity | ].
  rewrite pose_entries. unfold det3 in *. clear Hlen.
  destruct c as [w h r fo ne fa [cx cy cz] [a00 a01 a02 a10 a11 a12 a20 a21 a22] u].
  cbn in Hd |- *. unfold cofactor. cbn.
  split; entrywise ltac:(field; exact Hd).
Qed.

Lemma view_of_orthonormal (c : OrbitCamera.t R) :
  orthonormal (rot c) ->
  exists V,
    view c = Ok V /\ matmul V (pose c) = eye 4 /\ matmul (pose c) V = eye 4.
Proof.
  intros Hrot. apply view_pose_regular.
  intros E. apply orthonormal_det in Hrot. rewrite E in Hrot. lra.
Qed.

(** C8: for a camera with an orthonormal rotation, [view] returns and
    [view() @ pose()] is the 4 x 4 identity. *)
Theorem view_inverts_pose (c : OrbitCamera.t R) :
  orthonormal (rot c) ->
  exists V, view c = Ok V /\ matmul V (pose c) = eye 4.
Proof.
  intros Hrot.
  destruct (view_of_orthonormal c Hrot) as (V & HV & HVP & _).
  exists V. split; assumption.
Qed.

Lemma view_inverts_pose_witness :
  exists V, view camera_512 = Ok V /\ matmul V (pose camera_512) = eye 4.
Proof.
  exact (@view_inverts_pose camera_512 identity_orthonormal).
Defined.

(** A rotation about a unit axis is orthonormal. *)
Lemma rotation_about_orthonormal (k : Vec3 R) (deg : R) :
  unit_vector k -> orthonormal (rotation_about k deg).
Proof.
  unfold unit_vector, orthonormal, rotation_about. cbv zeta.
  destruct k as [x y z]. cbn [vx vy vz]. intros Hk.
  assert (Hsc := sin2_cos2 (radians deg)). unfold Rsqr in Hsc.
  generalize dependent (sin (radians deg)).
  generalize dependent (cos (radians deg)).
  intros co s Hsc. mat3_unfold.
  assert (Hz : z * z = 1 - x * x - y * y) by lra.
  assert (Hs : s * s = 1 - co * co) by lra.
  f_equal; ring [Hz Hs].
Qed.

Lemma orthonormal_compose (A B : Mat3 R) :
  orthonormal A -> orthonormal B -> orthonormal (Rot.compose A B).
Proof.
  unfold orthonormal, Rot.compose. intros EA EB.
  transitivity
    (Rot.mat3_mul (Rot.transpose B)
       (Rot.mat3_mul (Rot.mat3_mul (Rot.transpose A) A) B)).
  - destruct A as [a b c d e f g h i], B as [a' b' c' d' e' f' g' h' i'].
    mat3_unfold. f_equal; ring.
  - rewrite EA. rewrite <- EB at 2.
    destruct B as [a' b' c' d' e' f' g' h' i']. mat3_unfold. f_equal; ring.
Qed.

Lemma camera_512_well_formed : well_formed camera_512.
Proof.
  split; [ cbn; lra | split; [ exact identity_orthonormal | reflexivity ] ].
Qed.

(** [orbit] keeps the rotation orthonormal. *)
Lemma orbit_orthonormal (dx dy : R) (c : OrbitCamera.t R) :
  up c = mkVec3 0 1 0 -> orthonormal (rot c) ->
  orthonormal (rot (orbit dx dy c)).
Proof.
  intros Hup Hrot. rewrite (orbit_rot dx dy c Hup Hrot).
  apply orthonormal_compose; [ apply orthonormal_compose | exact Hrot ].
  - apply rotation_about_orthonormal. unfold unit_vector. cbn. ring.
  - apply rotation_about_orthonormal, orthonormal_column0, Hrot.
Qed.

Lemma well_formed_pan (dx dy dz : R) (c : OrbitCamera.t R) :
  well_formed c -> well_formed (pan dx dy dz c).
Proof. intros (Hr & Hrot & Hup). split; [ | split ]; assumption. Qed.

Lemma well_formed_orbit (dx dy : R) (c : OrbitCamera.t R) :
  well_formed c -> well_formed (orbit dx dy c).
Proof.
  intros (Hr & Hrot & Hup). split; [ exact Hr | split; [ | exact Hup ] ].
  apply orbit_orthonormal; assumption.
Qed.

(** X1: the camera states of the data model are closed under [pan] and
    [orbit]; in particular the rotation stays orthonormal under any sequence
    of [orbit] calls.  [scale] leaves the rotation and the up axis alone. *)
Theorem camera_invariant (c : OrbitCamera.t R) :
  well_formed c ->
  (forall dx dy dz, well_formed (pan dx dy dz c))
  /\ (forall dx dy, well_formed (orbit dx dy c))
  /\ (forall delta,
        orthonormal (rot (scale delta c))
        /\ up (scale delta c) = mkVec3 0 1 0).
Proof.
  intros Hc. split; [ | split ].
  - intros dx dy dz. apply well_formed_pan, Hc.
  - intros dx dy. apply well_formed_orbit, Hc.
  - intros delta. destruct Hc as (_ & Hrot & Hup). split; assumption.
Qed.

Lemma camera_invariant_witness :
  well_formed (orbit 100 40 (pan 10 0 0 camera_512)).
Proof.
  apply (@camera_invariant (pan 10 0 0 camera_512)).
  apply (@camera_invariant camera_512).
  exact camera_512_well_formed.
Defined.

(** *** How the mutators compose *)

(** Rotations about one axis add their angles. *)
Lemma rotation_about_add (k : Vec3 R) (a b : R) :
  unit_vector k ->
  Rot.compose (rotation_about k a) (rotation_about k b) = rotation_about k (a + b).
Proof.
  unfold unit_vector, rotation_about. cbv zeta.
  destruct k as [x y z]. cbn [vx vy vz]. intros Hk.
  replace (radians (a + b)) with (radians a + radians b) by (unfold radians; field).
  rewrite sin_plus, cos_plus.
  generalize (sin (radians a)) (cos (radians a)) (sin (radians b)) (cos (radians b)).
  intros sa ca sb cb. mat3_unfold.
  assert (Hz : z * z = 1 - x * x - y * y) by lra.
  f_equal; ring [Hz].
Qed.

(** A rotation about the first column of [M] leaves that column where it
    is. *)
Lemma rotation_about_fixes_axis (k : Vec3 R) (a : R) (M : Mat3 R) :
  column0 M = k ->
  column0 (Rot.compose (rotation_about k a) M) = k.
Proof.
  intros <-. destruct M as [a00 a01 a02 a10 a11 a12 a20 a21 a22].
  unfold rotation_about. cbv zeta. mat3_unfold.
  generalize (sin (radians a)) (cos (radians a)). intros s co.
  f_equal; ring.
Qed.

Lemma rotation_about_det (k : Vec3 R) (a : R) :
  unit_vector k -> det3 (rotation_about k a) = 1.
Proof.
  unfold unit_vector, rotation_about, det3. cbv zeta.
  destruct k as [x y z]. cbn [vx vy vz]. intros Hk.
  assert (Hsc := sin2_cos2 (radians a)). unfold Rsqr in Hsc.
  generalize dependent (sin (radians a)). generalize dependent (cos (radians a)).
  intros co s Hsc. mat3_unfold.
  assert (Hz : z * z = 1 - x * x - y * y) by lra.
  assert (Hs : s * s = 1 - co * co) by lra.
  ring [Hz Hs].
Qed.

Lemma det3_compose (A B : Mat3 R) :
  det3 (Rot.compose A B) = det3 A * det3 B.
Proof.
  destruct A as [a b c d e f g h i], B as [a' b' c' d' e' f' g' h' i'].
  unfold det3. mat3_unfold. ring.
Qed.

(** A horizontal drag turns the camera about the world's up axis. *)
Lemma orbit_yaw (dx : R) (c : OrbitCamera.t R) :
  up c = mkVec3 0 1 0 ->
  rot (orbit dx 0 c)
  = Rot.compose (rotation_about (mkVec3 0 1 0) (- (5 / 100) * dx)) (rot c).
Proof.
  intros Hup. unfold orbit. cbv zeta. cbn [rot set_rot]. rewrite Hup.
  rewrite (from_rotvec_scale_0 (column0 (as_matrix (rot c))))
    by (unfold radians; field).
  rewrite from_rotvec_scale by (unfold unit_vector; cbn; ring).
  destruct (rotation_about (mkVec3 0 1 0) (- (5 / 100) * dx)) as [a b c' d e f g h i].
  destruct (rot c) as [a' b' c'' d' e' f' g' h' i'].
  mat3_unfold. f_equal; ring.
Qed.

(** A vertical drag turns the camera about its own side axis. *)
Lemma orbit_pitch (dy : R) (c : OrbitCamera.t R) :
  orthonormal (rot c) ->
  rot (orbit 0 dy c)
  = Rot.compose (rotation_about (column0 (rot c)) (- (5 / 100) * dy)) (rot c).
Proof.
  intros Hrot. unfold orbit. cbv zeta. cbn [rot set_rot].
  rewrite (from_rotvec_scale_0 (up c)) by (unfold radians; field).
  rewrite from_rotvec_scale by (apply orthonormal_column0; exact Hrot).
  rewrite compose_identity_l. reflexivity.
Qed.

Lemma compose_assoc (A B C : Mat3 R) :
  Rot.compose A (Rot.compose B C) = Rot.compose (Rot.compose A B) C.
Proof.
  destruct A as [a b c d e f g h i], B as [a' b' c' d' e' f' g' h' i'],
    C as [a2 b2 c2 d2 e2 f2 g2 h2 i2].
  mat3_unfold. f_equal; ring.
Qed.

Lemma set_rot_eq (c : OrbitCamera.t R) (c' : OrbitCamera.t R) :
  same_but_rot c c' -> c' = set_rot (rot c') c.
Proof.
  destruct c, c'. unfold same_but_rot, set_rot. cbn.
  intros (-> & -> & -> & -> & -> & -> & -> & ->). reflexivity.
Qed.

Lemma orbit_yaw_add (a b : R) (c : OrbitCamera.t R) :
  up c = mkVec3 0 1 0 ->
  orbit a 0 (orbit b 0 c) = orbit (a + b) 0 c.
Proof.
  intros Hup.
  rewrite (set_rot_eq (c := c) (c' := orbit a 0 (orbit b 0 c))) by (repeat split).
  rewrite (set_rot_eq (c := c) (c' := orbit (a + b) 0 c)) by (repeat split).
  f_equal. rewrite !orbit_yaw by assumption.
  rewrite compose_assoc, rotation_about_add by (unfold unit_vector; cbn; ring).
  do 2 f_equal. ring.
Qed.

Lemma orbit_pitch_add (a b : R) (c : OrbitCamera.t R) :
  orthonormal (rot c) ->
  orbit 0 a (orbit 0 b c) = orbit 0 (a + b) c.
Proof.
  intros Hrot.
  rewrite (set_rot_eq (c := c) (c' := orbit 0 a (orbit 0 b c))) by (repeat split).
  rewrite (set_rot_eq (c := c) (c' := orbit 0 (a + b) c)) by (repeat split).
  f_equal.
  assert (Hside : unit_vector (column0 (rot c))) by (apply orthonormal_column0, Hrot).
  assert (Hrot' : orthonormal (rot (orbit 0 b c))).
  { rewrite orbit_pitch by assumption.
    apply orthonormal_compose; [ apply rotation_about_orthonormal | ]; assumption. }
  rewrite (orbit_pitch a (orbit 0 b c) Hrot'). rewrite !orbit_pitch by assumption.
  rewrite rotation_about_fixes_axis by reflexivity.
  rewrite compose_assoc, rotation_about_add by assumption.
  do 2 f_equal. ring.
Qed.

(** X8: drags along one axis add up: two horizontal drags are one by the sum
    of the distances, and so are two vertical drags; hence the opposite drag
    undoes a drag. *)
Theorem orbit_composes (a b : R) (c : OrbitCamera.t R) :
  well_formed c ->
  orbit a 0 (orbit b 0 c) = orbit (a + b) 0 c
  /\ orbit 0 a (orbit 0 b c) = orbit 0 (a + b) c
  /\ orbit (- a) 0 (orbit a 0 c) = c
  /\ orbit 0 (- a) (orbit 0 a c) = c.
Proof.
  intros (Hr & Hrot & Hup).
  split; [ apply orbit_yaw_add, Hup | ].
  split; [ apply orbit_pitch_add, Hrot | ].
  split.
  - rewrite orbit_yaw_add by exact Hup.
    replace (- a + a) with 0 by ring. apply orbit_0_0.
  - rewrite orbit_pitch_add by exact Hrot.
    replace (- a + a) with 0 by ring. apply orbit_0_0.
Qed.

Lemma orbit_composes_witness :
  orbit 100 0 (orbit 20 0 camera_512) = orbit (100 + 20) 0 camera_512
  /\ orbit 0 100 (orbit 0 20 camera_512) = orbit 0 (100 + 20) camera_512
  /\ orbit (- 100) 0 (orbit 100 0 camera_512) = camera_512
  /\ orbit 0 (- 100) (orbit 0 100 camera_512) = camera_512.
Proof.
  exact (@orbit_composes 100 20 camera_512 camera_512_well_formed).
Defined.

(** X9: [orbit] keeps the handedness of the camera frame: the determinant
    of the rotation matrix is unchanged, so a proper rotation stays one. *)
Theorem orbit_keeps_orientation (dx dy : R) (c : OrbitCamera.t R) :
  well_formed c ->
  det3 (rot (orbit dx dy c)) = det3 (rot c)
  /\ (det3 (rot c) = 1 -> det3 (rot (orbit dx dy c)) = 1).
Proof.
  intros (Hr & Hrot & Hup).
  assert (E : det3 (rot (orbit dx dy c)) = det3 (rot c)).
  { rewrite (orbit_rot dx dy c Hup Hrot), !det3_compose.
    rewrite !rotation_about_det.
    - ring.
    - apply orthonormal_column0, Hrot.
    - unfold unit_vector. cbn. ring. }
  split; [ exact E | intros H1; rewrite E; exact H1 ].
Qed.

Lemma orbit_keeps_orientation_witness :
  det3 (rot (orbit 100 40 camera_512)) = 1.
Proof.
  destruct (@orbit_keeps_orientation 100 40 camera_512 camera_512_well_formed)
    as (_ & Hproper).
  apply Hproper. unfold det3. cbn. ring.
Defined.

(** *** The camera in space *)

Lemma position_distance (c : OrbitCamera.t R) :
  orthonormal (rot c) ->
  dist2 (position c) (vec3_opp (center c)) = radius c * radius c.
Proof.
  unfold orthonormal, position, dist2, vec3_opp. rewrite pose_entries.
  destruct c as [w h r fo ne fa [cx cy cz] [a00 a01 a02 a10 a11 a12 a20 a21 a22] u].
  cbn. mat3_unfold. intros E.
  injection E as _ _ _ _ _ _ _ _ E22.
  replace (a02 * r - cx - - cx) with (a02 * r) by ring.
  replace (a12 * r - cy - - cy) with (a12 * r) by ring.
  replace (a22 * r - cz - - cz) with (a22 * r) by ring.
  transitivity ((a02 * a02 + a12 * a12 + a22 * a22) * (r * r)); [ ring | ].
  rewrite E22. ring.
Qed.

(** X10: the camera sits on the sphere of radius [radius] about the point
    [-center] (the pose subtracts [center]), and [orbit] moves it on that
    sphere. *)
Theorem position_on_sphere (c : OrbitCamera.t R) :
  well_formed c ->
  dist2 (position c) (vec3_opp (center c)) = radius c * radius c
  /\ (forall dx dy,
        dist2 (position (orbit dx dy c)) (vec3_opp (center c))
        = radius c * radius c).
Proof.
  intros (Hr & Hrot & Hup). split.
  - apply position_distance, Hrot.
  - intros dx dy.
    apply (position_distance (orbit dx dy c)).
    apply orbit_orthonormal; assumption.
Qed.

Lemma position_on_sphere_witness :
  dist2 (position (orbit 100 40 camera_512)) (vec3_opp (center camera_512))
  = radius camera_512 * radius camera_512.
Proof.
  destruct (@position_on_sphere camera_512 camera_512_well_formed)
    as (_ & Horbit).
  exact (Horbit 100 40).
Defined.

Lemma half_fov_range (x : R) : 0 < x < 180 -> 0 < radians x / 2 < PI / 2.
Proof.
  intros [H0 H1]. unfold radians. assert (HP := PI_RGT_0). split.
  - apply Rdiv_lt_0_compat; [ | lra ]. apply Rdiv_lt_0_compat; [ nra | lra ].
  - assert (x * PI / 180 < PI)
      by (apply (Rmult_lt_reg_r 180); [ lra | ]; field_simplify; nra).
    lra.
Qed.

(** X11: for a field of view below 180 degrees the focal length is positive,
    and a wider field of view gives a shorter focal length. *)
Theorem focal_decreasing (c c' : OrbitCamera.t R) :
  (0 < H c)%Z -> H c' = H c ->
  0 < fovy c -> fovy c < fovy c' -> fovy c' < 180 ->
  0 < focal c' < focal c.
Proof.
  intros HH EH H0 Hlt H180. unfold focal, intrinsics. cbn [nth]. rewrite EH.
  destruct (half_fov_range (x := fovy c)) as [A0 A1]; [ lra | ].
  destruct (half_fov_range (x := fovy c')) as [B0 B1]; [ lra | ].
  assert (T0 : 0 < tan (radians (fovy c) / 2)) by (apply tan_gt_0; assumption).
  assert (T1 : tan (radians (fovy c) / 2) < tan (radians (fovy c') / 2)).
  { apply tan_increasing; try lra. unfold radians. assert (HP := PI_RGT_0).
    apply (Rmult_lt_reg_r 360); [ lra | ]. field_simplify. nra. }
  assert (HZ : 0 < IZR (H c)) by (apply IZR_lt; exact HH).
  split.
  - apply Rdiv_lt_0_compat; lra.
  - unfold Rdiv. apply Rmult_lt_compat_l; [ exact HZ | ].
    apply Rinv_lt_contravar; nra.
Qed.

Lemma focal_decreasing_witness :
  0 < focal (OrbitCamera.init 512 512 3 90) < focal camera_512.
Proof.
  apply (@focal_decreasing camera_512 (OrbitCamera.init 512 512 3 90)).
  - reflexivity.
  - reflexivity.
  - cbn. lra.
  - cbn. lra.
  - cbn. lra.
Defined.

Lemma ndc_depth_closed (c : OrbitCamera.t R) (d : R) :
  d <> 0 -> near c <> far c ->
  ndc_depth c d
  = (far c + near c) / (far c - near c)
    - 2 * far c * near c / (far c - near c) * / d.
Proof.
  intros Hd Hnf. unfold ndc_depth, perspective, matvec. cbn.
  field. split; [ exact Hd | ]. intros E. apply Hnf. lra.
Qed.

(** X4: [perspective] sends the near plane to depth -1 and the far plane to
    depth 1, and between the two planes the depth [z/w] grows strictly with
    the distance, so it stays within [-1, 1] and keeps the order of the
    points along the view axis. *)
Theorem perspective_depth (c : OrbitCamera.t R) (d d' : R) :
  0 < near c < far c ->
  near c <= d -> d < d' -> d' <= far c ->
  ndc_depth c (near c) = -1
  /\ ndc_depth c (far c) = 1
  /\ -1 <= ndc_depth c d
  /\ ndc_depth c d < ndc_depth c d'
  /\ ndc_depth c d' <= 1.
Proof.
  intros [Hn Hf] Hd Hlt Hd'.
  rewrite !ndc_depth_closed by lra.
  set (n := near c) in *. set (f := far c) in *.
  assert (Hfn : 0 < f - n) by lra.
  assert (HB : 0 < 2 * f * n / (f - n)).
  { apply Rdiv_lt_0_compat; nra. }
  assert (En : (f + n) / (f - n) - 2 * f * n / (f - n) * / n = -1) by (field; lra).
  assert (Ef : (f + n) / (f - n) - 2 * f * n / (f - n) * / f = 1) by (field; lra).
  assert (Hinv : forall x y, 0 < x -> x < y -> / y < / x).
  { intros x y Hx Hxy. apply Rinv_lt_contravar; nra. }
  assert (Hinvle : forall x y, 0 < x -> x <= y -> / y <= / x).
  { intros x y Hx [Hxy | ->]; [ left; apply Hinv; assumption | right; reflexivity ]. }
  assert (H1 := Hinvle n d Hn Hd).
  assert (H2 := Hinv d d' ltac:(lra) Hlt).
  assert (H3 := Hinvle d' f ltac:(lra) Hd').
  split; [ exact En | ]. split; [ exact Ef | ].
  split; [ | split ]; nra.
Qed.

Lemma perspective_depth_witness :
  ndc_depth camera_512 (near camera_512) = -1
  /\ ndc_depth camera_512 (far camera_512) = 1
  /\ -1 <= ndc_depth camera_512 1
  /\ ndc_depth camera_512 1 < ndc_depth camera_512 2
  /\ ndc_depth camera_512 2 <= 1.
Proof.
  apply (@perspective_depth camera_512 1 2); cbn; lra.
Defined.

End CameraGeometry.

(** ** Images *)

Section TensorFacts.
Import Tensor.

Lemma length_zip_with {A B C : Type} (f : A -> B -> C) (xs : list A) (ys : list B) (n : nat) :
  List.length xs = n -> List.length ys = n -> List.length (zip_with f xs ys) = n.
Proof.
  intros Hx Hy. unfold zip_with. rewrite length_map, length_combine. lia.
Qed.

Section Pointwise.
Context {A B C : Type}.

Lemma has_shape_imap (f : A -> B) (h w : nat) (x : image A) :
  has_shape h w x -> has_shape h w (imap f x).
Proof.
  unfold has_shape, imap. intros [Hh Hw]. split.
  - now rewrite length_map.
  - apply Forall_map. eapply Forall_impl; [ | exact Hw ].
    intros row Hrow. cbn. now rewrite length_map.
Qed.

Lemma has_shape_imap2 (f : A -> B -> C) (h w : nat) (x : image A) (y : image B) :
  has_shape h w x -> has_shape h w y -> has_shape h w (imap2 f x y).
Proof.
  unfold has_shape, imap2. intros [Hxh Hxw] [Hyh Hyw]. split.
  - now apply length_zip_with.
  - unfold zip_with at 1. apply Forall_map.
    apply Forall_forall. intros [r1 r2] Hin. cbn.
    apply length_zip_with.
    + rewrite Forall_forall in Hxw. apply Hxw. eapply in_combine_l; eauto.
    + rewrite Forall_forall in Hyw. apply Hyw. eapply in_combine_r; eauto.
Qed.



End Pointwise.

Lemma zip_with_map_r {A B C : Type} (f : A -> C -> A) (g : B -> C)
    (xs : list A) (ys : list B) :
  List.length xs = List.length ys ->
  (forall a b, f a (g b) = a) ->
  zip_with f xs (map g ys) = xs.
Proof.
  intros Hlen Hf. revert ys Hlen.
  induction xs as [ | a xs IH]; intros [ | b ys] Hlen; cbn in *; try discriminate.
  - reflexivity.
  - unfold zip_with in *. cbn. rewrite Hf. f_equal. apply IH. lia.
Qed.

Lemma imap2_imap_r {A B C : Type} (f : A -> C -> A) (g : B -> C)
    (h w : nat) (x : image A) (y : image B) :
  has_shape h w x -> has_shape h w y ->
  (forall a b, f a (g b) = a) ->
  imap2 f x (imap g y) = x.
Proof.
  unfold has_shape, imap2, imap. intros [Hxh Hxw] [Hyh Hyw] Hf.
  revert h y Hxh Hyh Hyw.
  induction x as [ | r x IH]; intros h [ | s y] Hxh Hyh Hyw; cbn in *; try (subst; discriminate).
  - reflexivity.
  - unfold zip_with in *. cbn.
    inversion Hxw; subst. inversion Hyw; subst.
    f_equal.
    + apply (zip_with_map_r f g); [ congruence | exact Hf ].
    + eapply IH; eauto.
Qed.


End TensorFacts.

(** ** Rendering *)

Section RenderFacts.
Import Tensor Dr Np GUI RenderSpec CameraSpec Sample.
Local Open Scope string_scope.
Local Open Scope R_scope.
Variable dr : Dr.ops.

(** [test_step], stage by stage. *)
Lemma test_step_unfold (t : Q) (g : GUI.t) :
  test_step dr t g =
  if need_update g then
    match mesh g with
    | None => (Ok tt, g)
    | Some m =>
        match OrbitCamera.view (cam g) with
        | Raise e => (Raise e, g)
        | Ok mv =>
            match shaded dr g m mv with
            | Raise e => (Raise e, g)
            | Ok buffer =>
                if Qeq_bool t 0 then
                  (Raise ZeroDivisionError,
                   set_need_update false (set_render_buffer buffer g))
                else (Ok tt, present t buffer g)
            end
        end
    end
  else (Ok tt, g).
Proof.
  unfold test_step. prog_step.
  destruct (need_update g); [ | reflexivity ].
  destruct (mesh g) as [m | ]; [ | reflexivity ].
  destruct (OrbitCamera.view (cam g)) as [mv | e]; prog_step; [ | reflexivity ].
  unfold shaded. cbv zeta.
  destruct (mode g =? "depth").
  { prog_step. unfold PyQ.truediv. destruct (Qeq_bool t 0); prog_step; reflexivity. }
  destruct (mode g =? "albedo").
  { prog_step. unfold PyQ.truediv. destruct (Qeq_bool t 0); prog_step; reflexivity. }
  destruct (mode g =? "normal").
  { prog_step. unfold PyQ.truediv. destruct (Qeq_bool t 0); prog_step; reflexivity. }
  destruct (mode g =? "lambertian").
  { prog_step. unfold PyQ.truediv. destruct (Qeq_bool t 0); prog_step; reflexivity. }
  prog_step. reflexivity.
Qed.







Lemma raster_shape (g : GUI.t) (m : Mesh.t) (mv : matrix) :
  has_shape (Z.to_nat (H g)) (Z.to_nat (W g)) (raster dr g m mv).
Proof. apply rasterize_shape. Qed.

Lemma albedo_shape (g : GUI.t) (m : Mesh.t) (mv : matrix) :
  has_shape (Z.to_nat (H g)) (Z.to_nat (W g)) (albedo_image dr g m mv).
Proof.
  unfold albedo_image. cbv zeta.
  apply has_shape_imap, antialias_shape, has_shape_imap2.
  - apply raster_shape.
  - apply texture_shape, interpolate_shape, raster_shape.
Qed.

Lemma normal_shape (g : GUI.t) (m : Mesh.t) (mv : matrix) :
  has_shape (Z.to_nat (H g)) (Z.to_nat (W g)) (normal_image dr g m mv).
Proof.
  unfold normal_image, safe_normalize. cbv zeta.
  apply has_shape_imap, interpolate_shape, raster_shape.
Qed.





Lemma zeros_unit (h w : nat) : all_pixels unit_pixel (zeros h w).
Proof.
  unfold all_pixels, zeros.
  apply Forall_forall. intros row Hrow. apply repeat_spec in Hrow. subst row.
  apply Forall_forall. intros p Hp. apply repeat_spec in Hp. subst p.
  unfold unit_pixel, in_unit. cbn. lra.
Qed.

Lemma init_fresh (t : Q) (opt : Opt) : init dr t opt = fresh opt.
Proof. reflexivity. Qed.

(** With a mesh, a regular camera, a non-zero measured time and one of the
    four modes, a pending render completes. *)
Lemma test_step_completes (t : Q) (g : GUI.t) (m : Mesh.t) :
  mesh g = Some m -> need_update g = true ->
  orthonormal (OrbitCamera.rot (cam g)) -> ~ (t == 0)%Q ->
  In (mode g) ["depth"; "albedo"; "normal"; "lambertian"]%string ->
  fst (test_step dr t g) = Ok tt.
Proof.
  intros Hm Hu Hrot Ht Hmode.
  rewrite test_step_unfold, Hu, Hm.
  destruct (view_of_orthonormal (cam g) Hrot) as (V & HV & _). rewrite HV.
  assert (Hs : exists buffer, shaded dr g m V = Ok buffer).
  { unfold shaded. cbn in Hmode.
    destruct Hmode as [E | [E | [E | [E | []]]]]; rewrite <- E; cbn; eauto. }
  destruct Hs as (buffer & ->).
  destruct (Qeq_bool t 0) eqn:E; [ | reflexivity ].
  apply Qeq_bool_iff in E. contradiction.
Qed.



(** The buffer [__init__] allocates has [W] rows of [H] pixels. *)
Lemma startup_buffer_shape (t : Q) (opt : Opt) :
  has_shape (Z.to_nat (opt_W opt)) (Z.to_nat (opt_H opt))
    (render_buffer (init dr t opt)).
Proof.
  rewrite init_fresh. cbn [render_buffer fresh]. unfold zeros, has_shape.
  split; [ apply repeat_length | ].
  apply Forall_forall. intros row Hrow. apply repeat_spec in Hrow. subst row.
  apply repeat_length.
Qed.

(** X7: a render that completed is not repeated: the next [test_step] returns at
    once and leaves the state, the colour buffer included, as it is. *)
Theorem render_idempotent (t : Q) (g : GUI.t) :
  fst (test_step dr t g) = Ok tt ->
  test_step dr t (snd (test_step dr t g)) = (Ok tt, snd (test_step dr t g)).
Proof.
  rewrite (test_step_unfold t g).
  destruct (need_update g) eqn:Hu.
  - destruct (mesh g) as [m | ] eqn:Hm.
    + destruct (OrbitCamera.view (cam g)) as [V | e]; [ | discriminate ].
      destruct (shaded dr g m V) as [buffer | e]; [ | discriminate ].
      destruct (Qeq_bool t 0); [ discriminate | ].
      intros _. cbn [snd]. rewrite test_step_unfold. reflexivity.
    + intros _. cbn [snd]. rewrite test_step_unfold, Hu, Hm. reflexivity.
  - intros _. cbn [snd]. rewrite test_step_unfold, Hu. reflexivity.
Qed.

End RenderFacts.

Section RenderClaims.
Import Tensor Dr Np GUI RenderSpec CameraSpec Sample.
Local Open Scope string_scope.
Local Open Scope R_scope.

Lemma viewer_2_renders :
  fst (test_step (uniform_raster (fragment (1 / 2)) grey) 1
         (viewer_2 "lambertian")) = Ok tt.
Proof.
  apply test_step_completes with (m := triangle).
  - reflexivity.
  - reflexivity.
  - exact identity_orthonormal.
  - discriminate.
  - cbn. auto.
Qed.


Lemma render_idempotent_witness :
  test_step (uniform_raster (fragment (1 / 2)) grey) 1
    (snd (test_step (uniform_raster (fragment (1 / 2)) grey) 1
            (viewer_2 "lambertian")))
  = (Ok tt,
     snd (test_step (uniform_raster (fragment (1 / 2)) grey) 1
            (viewer_2 "lambertian"))).
Proof.
  exact (@render_idempotent (uniform_raster (fragment (1 / 2)) grey) 1
           (viewer_2 "lambertian") viewer_2_renders).
Defined.

(** With a viewport that is not square the buffer of [__init__] has width
    and height exchanged. *)
Lemma startup_buffer_transposed :
  ~ has_shape 2 3
      (render_buffer
         (init (uniform_raster (fragment (1 / 2)) grey) 1 (mkOpt 3 2 3 50))).
Proof.
  rewrite init_fresh. intros [Hlen _]. cbn in Hlen. discriminate.
Qed.



(** C9: with [ambient_ratio = 1] and everything else equal, a render in
    lambertian mode ends as a render in albedo mode does and leaves the same
    colour buffer: the lighting term is 1 at every pixel. *)
Theorem lambertian_full_ambient_is_albedo (dr : Dr.ops) (t : Q) (g : GUI.t) :
  fst (render_in_mode dr t "lambertian" (set_ambient_ratio 1 g))
  = fst (render_in_mode dr t "albedo" (set_ambient_ratio 1 g))
  /\ render_buffer (snd (render_in_mode dr t "lambertian" (set_ambient_ratio 1 g)))
     = render_buffer (snd (render_in_mode dr t "albedo" (set_ambient_ratio 1 g))).
Proof.
  unfold render_in_mode, callback_change_mode. prog_step.
  rewrite !test_step_unfold.
  cbn [need_update mesh cam set_need_update set_mode set_ambient_ratio].
  destruct (mesh g) as [m | ]; [ | split; reflexivity ].
  destruct (OrbitCamera.view (cam g)) as [V | e]; [ | split; reflexivity ].
  set (gl := set_need_update true (set_mode "lambertian" (set_ambient_ratio 1 g))).
  set (ga := set_need_update true (set_mode "albedo" (set_ambient_ratio 1 g))).
  assert (El : shaded dr gl m V = Ok (albedo_image dr ga m V)).
  { unfold shaded. change (mode gl) with "lambertian"%string.
    cbn [String.eqb Ascii.eqb Bool.eqb]. f_equal.
    change (albedo_image dr gl m V) with (albedo_image dr ga m V).
    change (normal_image dr gl m V) with (normal_image dr ga m V).
    eapply imap2_imap_r.
    - apply albedo_shape.
    - apply normal_shape.
    - intros [x y z] n. unfold lit, vec3_map. cbn [vx vy vz ambient_ratio gl set_need_update set_mode set_ambient_ratio].
      f_equal; ring. }
  assert (Ea : shaded dr ga m V = Ok (albedo_image dr ga m V)) by reflexivity.
  rewrite El, Ea.
  destruct (Qeq_bool t 0); split; reflexivity.
Qed.

(** C4: without a mesh [test_step] returns and changes nothing, the colour
    buffer included; the save callback, however, raises [AttributeError]. *)
Theorem missing_mesh (dr : Dr.ops) (t : Q) (g : GUI.t) :
  test_step dr t (set_mesh None g) = (Ok tt, set_mesh None g)
  /\ callback_save_mesh (set_mesh None g)
     = (Raise AttributeError, set_mesh None g).
Proof.
  split; [ | reflexivity ].
  rewrite test_step_unfold. cbn [need_update mesh set_mesh].
  destruct (need_update g); reflexivity.
Qed.


End RenderClaims.

(** ** Shading *)

Section ShadingFacts.
Import Tensor Dr Np GUI RenderSpec CameraSpec StateSpec Sample.
Local Open Scope string_scope.
Local Open Scope R_scope.
Variable dr : Dr.ops.









(** Outside the lambertian mode the shading reads neither the light
    direction nor the ambient share. *)
Lemma shaded_unlit (g : GUI.t) (m : Mesh.t) (mv : matrix)
    (a : R) (l : Z * Z) :
  mode g <> "lambertian" ->
  shaded dr (set_ambient_ratio a (Handlers.set_light_dir l g)) m mv
  = shaded dr g m mv.
Proof.
  intros Hmode. unfold shaded.
  change (mode (set_ambient_ratio a (Handlers.set_light_dir l g))) with (mode g).
  destruct (mode g =? "depth"); [ reflexivity | ].
  destruct (mode g =? "albedo"); [ reflexivity | ].
  destruct (mode g =? "normal"); [ reflexivity | ].
  destruct (String.eqb_spec (mode g) "lambertian"); [ contradiction | reflexivity ].
Qed.

(** X14: the light direction and the ambient share matter in the lambertian
    mode only: in every other mode a render ends the same way and leaves the
    same colour buffer whatever the two are. *)
Theorem lighting_only_in_lambertian (t : Q) (g : GUI.t) (a : R) (l : Z * Z) :
  mode g <> "lambertian" ->
  fst (test_step dr t (set_ambient_ratio a (Handlers.set_light_dir l g)))
  = fst (test_step dr t g)
  /\ render_buffer
       (snd (test_step dr t (set_ambient_ratio a (Handlers.set_light_dir l g))))
     = render_buffer (snd (test_step dr t g)).
Proof.
  intros Hmode. rewrite !test_step_unfold.
  cbn [need_update mesh cam set_ambient_ratio Handlers.set_light_dir].
  destruct (need_update g); [ | split; reflexivity ].
  destruct (mesh g) as [m | ]; [ | split; reflexivity ].
  destruct (OrbitCamera.view (cam g)) as [V | e]; [ | split; reflexivity ].
  rewrite shaded_unlit by exact Hmode.
  destruct (shaded dr g m V) as [buffer | e]; [ | split; reflexivity ].
  destruct (Qeq_bool t 0); split; reflexivity.
Qed.






End ShadingFacts.

Section ShadingWitnesses.
Import Tensor Dr Np GUI RenderSpec CameraSpec StateSpec Sample.
Local Open Scope string_scope.
Local Open Scope R_scope.

Lemma lighting_only_in_lambertian_witness :
  render_buffer
    (snd (test_step (uniform_raster (fragment (1 / 2)) grey) 1
            (set_ambient_ratio 1 (Handlers.set_light_dir (90, 45)%Z
               (viewer_2 "albedo")))))
  = render_buffer
      (snd (test_step (uniform_raster (fragment (1 / 2)) grey) 1
              (viewer_2 "albedo"))).
Proof.
  apply (@lighting_only_in_lambertian (uniform_raster (fragment (1 / 2)) grey)
           1 (viewer_2 "albedo") 1 (90, 45)%Z).
  discriminate.
Defined.




End ShadingWitnesses.

(** ** The callbacks and the loop *)

Section ViewerFacts.
Import Tensor Dr Np GUI Handlers RenderSpec CameraSpec StateSpec Session Sample.
Local Open Scope string_scope.
Local Open Scope R_scope.

Lemma item_of_assign (tag : string) (x : item) (items : list (string * item)) :
  item_of tag (assign tag x items) = Some x.
Proof.
  induction items as [ | [k y] rest IH]; cbn.
  - rewrite String.eqb_refl. reflexivity.
  - destruct (String.eqb k tag) eqn:E; cbn; rewrite E; [ reflexivity | exact IH ].
Qed.

(** [test_step] touches the colour buffer, the dirty flag and the GUI items
    only. *)
Lemma test_step_shape (dr : Dr.ops) (t : Q) (g : GUI.t) :
  exists r b u d,
    test_step dr t g
    = (r, GUI.mk (W g) (H g) (cam g) (bg_color g) b u (light_dir g)
            (ambient_ratio g) (mode g) (debug g) (mesh g) (training g)
            (step g) (train_steps g) d (disk g)).
Proof.
  rewrite test_step_unfold.
  destruct g as [w h c bg b0 u0 l a md db ms tr st ts d0 dk].
  cbn [W H cam bg_color render_buffer need_update light_dir ambient_ratio mode
       debug mesh training step train_steps dpg disk].
  destruct u0; [ | do 4 eexists; reflexivity ].
  destruct ms as [m | ]; [ | do 4 eexists; reflexivity ].
  destruct (OrbitCamera.view c) as [V | e]; [ | do 4 eexists; reflexivity ].
  destruct (shaded dr _ m V) as [buffer | e]; [ | do 4 eexists; reflexivity ].
  destruct (Qeq_bool t 0); do 4 eexists; reflexivity.
Qed.


(** X21: after the "get" button the "save" button does not fail: it writes
    the mesh that was just generated to [mesh.obj], and a render is pending. *)
Theorem get_then_save (generated : Mesh.t) (g : GUI.t) :
  fst (Prog.bind (callback_get_mesh generated) (fun _ => callback_save_mesh) g)
  = Ok tt
  /\ disk (snd (Prog.bind (callback_get_mesh generated)
                  (fun _ => callback_save_mesh) g))
     = ("mesh.obj", generated) :: disk g
  /\ mesh (snd (Prog.bind (callback_get_mesh generated)
                  (fun _ => callback_save_mesh) g))
     = Some generated
  /\ need_update (snd (Prog.bind (callback_get_mesh generated)
                         (fun _ => callback_save_mesh) g))
     = true
  /\ item_of "_log_save_mesh"
       (dpg (snd (Prog.bind (callback_get_mesh generated)
                    (fun _ => callback_save_mesh) g)))
     = Some (Text "saved mesh!").
Proof.
  unfold callback_get_mesh, callback_save_mesh. prog_step.
  cbn [mesh set_dpg set_need_update set_mesh]. prog_step.
  cbn [fst snd disk mesh need_update dpg set_dpg set_disk set_need_update set_mesh].
  repeat split. apply item_of_assign.
Qed.

(** X22: the train button is a switch: a click inverts [training] and two
    clicks restore it, and after every click the button reads "stop" exactly
    when training is on. *)
Theorem callback_train_toggles (g : GUI.t) :
  fst (callback_train g) = Ok tt
  /\ training (snd (callback_train g)) = negb (training g)
  /\ training (snd (callback_train (snd (callback_train g)))) = training g
  /\ item_of "_button_train" (dpg (snd (callback_train g)))
     = Some (Text (if training (snd (callback_train g)) then "stop" else "start")).
Proof.
  unfold callback_train, configure_label. prog_step.
  destruct (training g) eqn:Htr; prog_step;
    cbn [fst snd training dpg set_dpg set_training negb];
    (split; [ reflexivity | ]); (split; [ reflexivity | ]);
    (split; [ | apply item_of_assign ]).
  - prog_step. cbn [training set_dpg set_training]. prog_step. reflexivity.
  - prog_step. cbn [training set_dpg set_training]. prog_step. reflexivity.
Qed.

(** X23: the light sliders show two decimals, but [light_dir] is an array of
    integers: what is stored is the slider value without its fraction.  The
    other angle is left alone and a render is pending. *)
Theorem light_slider_truncates (x : Q) (i : angle) (g : GUI.t) :
  (0 <= x)%Q ->
  fst (callback_set_light_dir x i g) = Ok tt
  /\ need_update (snd (callback_set_light_dir x i g)) = true
  /\ match i with
     | Theta =>
         (inject_Z (fst (light_dir (snd (callback_set_light_dir x i g)))) <= x
          < inject_Z (fst (light_dir (snd (callback_set_light_dir x i g)))) + 1)%Q
         /\ snd (light_dir (snd (callback_set_light_dir x i g)))
            = snd (light_dir g)
     | Phi =>
         (inject_Z (snd (light_dir (snd (callback_set_light_dir x i g)))) <= x
          < inject_Z (snd (light_dir (snd (callback_set_light_dir x i g)))) + 1)%Q
         /\ fst (light_dir (snd (callback_set_light_dir x i g)))
            = fst (light_dir g)
     end.
Proof.
  intros Hx. unfold callback_set_light_dir. prog_step.
  cbn [fst snd need_update light_dir set_need_update set_light_dir].
  split; [ reflexivity | ]. split; [ reflexivity | ].
  destruct i; cbn [store_angle fst snd];
    (split; [ split; [ apply int_le | apply int_lt_succ ]; exact Hx | reflexivity ]).
Qed.

Lemma light_slider_truncates_witness :
  (inject_Z (fst (light_dir (snd (callback_set_light_dir 45.75 Theta viewer_512))))
   <= 45.75
   < inject_Z (fst (light_dir (snd (callback_set_light_dir 45.75 Theta viewer_512))))
     + 1)%Q.
Proof.
  destruct (@light_slider_truncates 45.75 Theta viewer_512) as (_ & _ & Hk & _);
    [ discriminate | ].
  exact Hk.
Defined.

(** What a camera event does when the window has the focus. *)
Lemma drag_rotate_focused (str : matrix -> string) (ev : R * R * R) (g : GUI.t) :
  exists d,
    callback_camera_drag_rotate str true ev g
    = (Ok tt,
       set_dpg d
         (set_need_update true
            (set_cam (OrbitCamera.orbit (snd (fst ev)) (snd ev) (cam g)) g))).
Proof.
  unfold callback_camera_drag_rotate, log_pose. cbn [negb]. prog_step.
  cbn [debug set_need_update set_cam].
  destruct (debug g) eqn:Hd.
  - eexists. reflexivity.
  - exists (dpg g). destruct g. reflexivity.
Qed.

Lemma wheel_focused (str : matrix -> string) (delta : R) (g : GUI.t) :
  exists d,
    callback_camera_wheel_scale str true delta g
    = (Ok tt,
       set_dpg d
         (set_need_update true (set_cam (OrbitCamera.scale delta (cam g)) g))).
Proof.
  unfold callback_camera_wheel_scale, log_pose. cbn [negb]. prog_step.
  cbn [debug set_need_update set_cam].
  destruct (debug g) eqn:Hd.
  - eexists. reflexivity.
  - exists (dpg g). destruct g. reflexivity.
Qed.

Lemma drag_pan_focused (str : matrix -> string) (ev : R * R * R) (g : GUI.t) :
  exists d,
    callback_camera_drag_pan str true ev g
    = (Ok tt,
       set_dpg d
         (set_need_update true
            (set_cam (OrbitCamera.pan2 (snd (fst ev)) (snd ev) (cam g)) g))).
Proof.
  unfold callback_camera_drag_pan, log_pose. cbn [negb]. prog_step.
  cbn [debug set_need_update set_cam].
  destruct (debug g) eqn:Hd.
  - eexists. reflexivity.
  - exists (dpg g). destruct g. reflexivity.
Qed.

(** *** The states of a session *)

Lemma reachable_mk (g : GUI.t) (bg : Vec3 R) (b : image (Vec3 R)) (u : bool)
    (l : Z * Z) (md : string) (db : bool) (ms : option Mesh.t) (tr : bool)
    (st ts : Z) (d : list (string * item)) (dk : list (string * Mesh.t)) :
  reachable g ->
  (ts = train_steps g \/ (4 <= ts <= 16)%Z) -> (0 <= st)%Z ->
  reachable
    (GUI.mk (W g) (H g) (cam g) bg b u l (ambient_ratio g) md db ms tr st ts d dk).
Proof.
  unfold reachable. cbn.
  intros (Hrot & Hup & Hf & Hnf & HW & HH & Hts & Hst & Ha) Hts' Hst'.
  assert (4 <= ts <= 16)%Z by (destruct Hts' as [-> | ?]; lia).
  tauto.
Qed.

Lemma reachable_cam (g : GUI.t) (c : OrbitCamera.t R)
    (u : bool) (d : list (string * item)) :
  reachable g ->
  orthonormal (OrbitCamera.rot c) ->
  OrbitCamera.up c = mkVec3 0 1 0 ->
  OrbitCamera.fovy c = OrbitCamera.fovy (cam g) ->
  OrbitCamera.near c = OrbitCamera.near (cam g) ->
  OrbitCamera.far c = OrbitCamera.far (cam g) ->
  OrbitCamera.W c = OrbitCamera.W (cam g) ->
  OrbitCamera.H c = OrbitCamera.H (cam g) ->
  reachable (set_dpg d (set_need_update u (set_cam c g))).
Proof.
  unfold reachable. cbn.
  intros (Hrot & Hup & Hf & Hnf & HW & HH & Hts & Hst & Ha) Hrot' Hup'
    -> -> -> -> ->.
  tauto.
Qed.

Lemma fresh_reachable (opt : Opt) :
  0 < opt_fovy opt < 180 -> reachable (fresh opt).
Proof.
  intros Hf. unfold reachable, in_unit. cbn.
  repeat split; try lra; try lia. exact identity_orthonormal.
Qed.

Lemma train_step_reachable (trainer : Z -> Run) (g : GUI.t) :
  reachable g -> reachable (snd (train_step trainer g)).
Proof.
  intros Hg. destruct (train_step_shape trainer g) as (r & ts & d & -> & Hts).
  cbn [snd]. apply reachable_mk; [ exact Hg | exact Hts | ].
  destruct Hg as (_ & _ & _ & _ & _ & _ & Hn & Hs & _). lia.
Qed.

Lemma test_step_reachable (dr : Dr.ops) (t : Q) (g : GUI.t) :
  reachable g -> reachable (snd (test_step dr t g)).
Proof.
  intros Hg. destruct (test_step_shape dr t g) as (r & b & u & d & ->).
  cbn [snd]. apply reachable_mk; [ exact Hg | left; reflexivity | ].
  destruct Hg as (_ & _ & _ & _ & _ & _ & _ & Hs & _). exact Hs.
Qed.

Lemma handle_reachable (dr : Dr.ops) (str : matrix -> string)
    (e : event) (g : GUI.t) :
  reachable g -> in_range e -> reachable (snd (handle dr str e g)).
Proof.
  intros Hg He.
  assert (Hg' := Hg).
  destruct Hg' as (Hrot & Hup & Hf & Hnf & HW & HH & Hts & Hst & Ha).
  destruct e as [trainer t | m | | | md | a | x i | a | focused ev | focused delta
                | focused ev]; cbn [handle in_range] in *.
  - unfold render_frame. prog_step. unfold Prog.bind.
    destruct (training g).
    + assert (H1 := train_step_reachable trainer Hg).
      destruct (train_step trainer g) as [[[] | e] g1]; cbn [snd] in H1.
      * apply test_step_reachable, H1.
      * exact H1.
    + cbn. apply test_step_reachable, Hg.
  - unfold callback_get_mesh. prog_step. cbn [snd].
    unfold reachable. cbn. tauto.
  - unfold callback_save_mesh. prog_step.
    destruct (mesh g); prog_step; cbn [snd]; [ | exact Hg ].
    unfold reachable. cbn. tauto.
  - unfold callback_train, configure_label. prog_step.
    destruct (training g); prog_step; cbn [snd]; unfold reachable; cbn; tauto.
  - unfold callback_change_mode. prog_step. cbn [snd].
    unfold reachable. cbn. tauto.
  - unfold callback_set_fovy. prog_step. cbn [snd].
    unfold reachable. cbn.
    assert (1 <= IZR a <= 120) by (split; apply IZR_le; lia).
    split; [ exact Hrot | ]. split; [ exact Hup | ]. split; [ lra | ]. tauto.
  - unfold callback_set_light_dir. prog_step. cbn [snd].
    unfold reachable. cbn. tauto.
  - unfold callback_set_abm_ratio. prog_step. cbn [snd].
    unfold reachable. cbn. tauto.
  - destruct focused; [ | exact Hg ].
    destruct (drag_rotate_focused str ev g) as (d & ->). cbn [snd].
    apply reachable_cam; try reflexivity; [ exact Hg | | exact Hup ].
    apply orbit_orthonormal; assumption.
  - destruct focused; [ | exact Hg ].
    destruct (wheel_focused str delta g) as (d & ->). cbn [snd].
    apply reachable_cam; try reflexivity; [ exact Hg | exact Hrot | exact Hup ].
  - destruct focused; [ | exact Hg ].
    destruct (drag_pan_focused str ev g) as (d & ->). cbn [snd].
    apply reachable_cam; try reflexivity; [ exact Hg | exact Hrot | exact Hup ].
Qed.

Lemma run_reachable (dr : Dr.ops) (str : matrix -> string)
    (es : list event) (g : GUI.t) :
  reachable g -> Forall in_range es -> reachable (run dr str es g).
Proof.
  revert g. induction es as [ | e es IH]; intros g Hg Hes; [ exact Hg | ].
  inversion Hes; subst. cbn [run].
  apply IH; [ apply handle_reachable | ]; assumption.
Qed.

(** X25: whatever happens in a session that starts with a field of view
    below 180 degrees, and in which the sliders send values of their ranges,
    the viewer stays in a state of the data model; in particular the camera
    matrix stays invertible, so that no render fails with [LinAlgError].
    The radius is no part of this: the wheel can take it anywhere. *)
Theorem session_invariant (dr : Dr.ops) (str : matrix -> string) (t : Q)
    (opt : Opt) (es : list event) :
  0 < opt_fovy opt < 180 ->
  Forall in_range es ->
  reachable (run dr str es (init dr t opt))
  /\ (exists V,
        OrbitCamera.view (cam (run dr str es (init dr t opt))) = Ok V)
  /\ (forall t', fst (test_step dr t' (run dr str es (init dr t opt)))
                 <> Raise LinAlgError).
Proof.
  intros Hf Hes.
  assert (Hg : reachable (run dr str es (init dr t opt))).
  { apply run_reachable; [ | exact Hes ].
    rewrite init_fresh. apply fresh_reachable; assumption. }
  split; [ exact Hg | ].
  destruct Hg as (Hrot & _).
  destruct (view_of_orthonormal _ Hrot) as (V & HV & _).
  split; [ exists V; exact HV | ].
  intros t'. rewrite test_step_unfold, HV.
  destruct (need_update _); [ | discriminate ].
  destruct (mesh _) as [m | ]; [ | discriminate ].
  destruct (shaded dr _ m V) as [buffer | e] eqn:Hs.
  - destruct (Qeq_bool t' 0); discriminate.
  - unfold shaded in Hs.
    destruct (mode _ =? "depth"); [ discriminate | ].
    destruct (mode _ =? "albedo"); [ discriminate | ].
    destruct (mode _ =? "normal"); [ discriminate | ].
    destruct (mode _ =? "lambertian"); [ discriminate | ].
    injection Hs as <-. discriminate.
Qed.

Lemma session_invariant_witness :
  reachable
    (run (uniform_raster (fragment (1 / 2)) grey) (fun _ => EmptyString)
       [GetMesh triangle; Wheel true 1; SetFovy 90;
        Frame (constant_trainer 1053) 1; DragRotate true (0, 100, 40);
        ToggleTrain; Frame (constant_trainer 1053) 1; SetAmbient 1; SaveMesh]
       (init (uniform_raster (fragment (1 / 2)) grey) 1 (mkOpt 512 512 3 50))).
Proof.
  apply (@session_invariant (uniform_raster (fragment (1 / 2)) grey)
           (fun _ => EmptyString) 1 (mkOpt 512 512 3 50)).
  - cbn. lra.
  - repeat constructor; cbn; try lia; unfold in_unit; lra.
Defined.


End ViewerFacts.
